(** * Cinema booking front end: the API client, the selection reducer and the
      reservation and payment handlers, embedded from the TypeScript sources.

    - [frontend/lib/api.ts]: [unwrap], [getPeliculas], [getSesiones],
      [getAsientos], [crearEntrada], [pagarEntrada];
    - the cinema context: [initialState], [cinemaReducer];
    - the seat page: [cargarAsientos], [isAsientoSeleccionado],
      [handleConfirmarSeleccion], [asientosPorFila];
    - the confirmation page: [handlePagar].

    The Django back end is not part of the sources at hand; where a property
    depends on it, module [Backend] models it from the specification. *)

From Stdlib Require Import ZArith Ascii String.
From stdpp Require Import base option list strings gmap sorting.

Local Open Scope string_scope.
Local Open Scope list_scope.
Local Open Scope Z_scope.

(** ** JavaScript values, as far as the client inspects them at run time *)

#[local] Set Warnings "-register-all".

Inductive JsVal : Type :=
| JUndefined
| JNull
| JBool (b : bool)
| JNum (n : Z)
| JStr (s : string)
| JArr (items : list JsVal)
| JObj (props : list (string * JsVal)).

(** Truthiness, as used by [!data], [a || b] and [if (x)]. *)
Definition truthy (v : JsVal) : bool :=
  match v with
  | JUndefined | JNull => false
  | JBool b => b
  | JNum n => negb (Z.eqb n 0)
  | JStr s => negb (String.eqb s "")
  | JArr _ | JObj _ => true
  end.

(** Own properties of an object literal, first binding wins. *)
Fixpoint obj_get (props : list (string * JsVal)) (k : string) : JsVal :=
  match props with
  | [] => JUndefined
  | (k', v) :: rest => if String.eqb k' k then v else obj_get rest k
  end.

Fixpoint obj_delete (props : list (string * JsVal)) (k : string)
  : list (string * JsVal) :=
  match props with
  | [] => []
  | (k', v) :: rest =>
      if String.eqb k' k then obj_delete rest k else (k', v) :: obj_delete rest k
  end.

Fixpoint obj_set (props : list (string * JsVal)) (k : string) (v : JsVal)
  : list (string * JsVal) :=
  match props with
  | [] => [(k, v)]
  | (k', v') :: rest =>
      if String.eqb k' k then (k', v) :: rest else (k', v') :: obj_set rest k v
  end.

(** ** Exceptions and asynchronous calls *)

Record HttpResponse : Type := mkResponse { status : Z; data : JsVal }.

(** What a [catch] clause can receive: a rejected axios request (with the
    response when the server answered), an [Error] built with [new Error(m)],
    or a run-time [TypeError]. *)
Inductive Thrown : Type :=
| AxiosError (message : string) (response : option HttpResponse)
| Error (message : string)
| TypeError (message : string).

Inductive result (A : Type) : Type :=
| Ok (a : A)
| Throw (e : Thrown).
Arguments Ok {A} a.
Arguments Throw {A} e.

(** An [async] function run to completion against the outside world [W]
    (the HTTP server): the world is threaded through the awaited calls. *)
Definition Async (W A : Type) : Type := W → W * result A.

Definition async_ret {W A} (a : A) : Async W A := λ w, (w, Ok a).
Definition async_throw {W A} (e : Thrown) : Async W A := λ w, (w, Throw e).
Definition async_bind {W A B} (m : Async W A) (k : A → Async W B) : Async W B :=
  λ w, match m w with
       | (w', Ok a) => k a w'
       | (w', Throw e) => (w', Throw e)
       end.
(** [try { m } catch (e) { h e }]. *)
Definition try_catch {W A} (m : Async W A) (h : Thrown → Async W A) : Async W A :=
  λ w, match m w with
       | (w', Ok a) => (w', Ok a)
       | (w', Throw e) => h e w'
       end.
(** Lifting a synchronous computation that may throw. *)
Definition lift_result {W A} (r : result A) : Async W A := λ w, (w, r).

Declare Scope async_scope.
Delimit Scope async_scope with async.
Notation "'await' x ← m ;; k" := (async_bind m (λ x, k))
  (at level 100, x name, m at level 99, k at level 200) : async_scope.
Local Open Scope async_scope.

(** Property reads.  [v.k] throws on [null] and [undefined]; primitives and
    arrays have none of the names read by this client ([results], [layout]),
    so they answer [undefined]. *)
Definition get_prop (v : JsVal) (k : string) : result JsVal :=
  match v with
  | JUndefined | JNull => Throw (TypeError "Cannot read properties of nullish value")
  | JObj props => Ok (obj_get props k)
  | _ => Ok JUndefined
  end.

(** [v?.k]. *)
Definition get_prop_opt (v : JsVal) (k : string) : result JsVal :=
  match v with
  | JUndefined | JNull => Ok JUndefined
  | _ => get_prop v k
  end.

(** [a || b]. *)
Definition js_or (a b : JsVal) : JsVal := if truthy a then a else b.

Fixpoint chars (s : string) : list JsVal :=
  match s with
  | EmptyString => []
  | String c rest => JStr (String c EmptyString) :: chars rest
  end.

(** The values a [for (const x of v)] loop visits; a value that is not
    iterable makes the loop throw. *)
Definition iterate (v : JsVal) : result (list JsVal) :=
  match v with
  | JArr items => Ok items
  | JStr s => Ok (chars s)
  | _ => Throw (TypeError "value is not iterable")
  end.

(** ** lib/api.ts: types *)

Inductive EstadoAsiento : Type := libre | reservada_a | pagada_a.
Inductive EstadoEntrada : Type := reservada | pagada.

Record Asiento : Type := mkAsiento {
  a_fila : string;
  a_numero : Z;
  a_estado : EstadoAsiento
}.

(** [Entrada], with the optional members of both declarations (lib/api.ts and
    the cinema context) and the two flags the seat page reads and writes. *)
Record Entrada : Type := mkEntrada {
  id : Z;
  sesion : Z;
  fila : string;
  numero : Z;
  email : string;
  estado : EstadoEntrada;
  etiqueta_asiento : option string;
  creada_en : option string;
  pelicula_e : option string;
  hora_e : option string;
  sala_e : option string;
  simulated : bool;
  isDemo : bool
}.

(** The body of [POST /entradas/]; its [estado] member has the singleton type
    ["reservada"]. *)
Record Payload : Type := mkPayload {
  p_sesion : Z;
  p_fila : string;
  p_numero : Z;
  p_email : string
}.

Inductive Endpoint : Type :=
| PeliculasList
| SesionesList
| SesionAsientos (sesionId : Z).

(** The axios instance [api]: what the outside world answers to each request
    the client issues.  A rejected promise is a [Throw]. *)
Class Api (W : Type) : Type := {
  api_get : Endpoint → list (string * JsVal) → Async W JsVal;
  api_post_entradas : Payload → Async W Entrada;
  api_post_pagar : Z → Async W Entrada
}.

(** ** lib/api.ts: functions *)

Definition unwrap (data : JsVal) : result (list JsVal) :=
  if negb (truthy data) then Ok []
  else match data with
       | JArr items => Ok items
       | _ =>
           match get_prop data "results" with
           | Ok (JArr items) => Ok items
           | Ok _ => Ok []
           | Throw e => Throw e
           end
       end.

(** The query of the seat-map request. *)
Definition params_asientos (includeEstado : bool) : list (string * JsVal) :=
  if includeEstado then [("include", JStr "estado")] else [].

Section Client.
Context {W : Type} `{Api W}.

Definition getPeliculas (params : option (list (string * JsVal)))
  : Async W (list JsVal) :=
  try_catch
    (await data ← api_get PeliculasList (default [] params) ;;
     lift_result (unwrap data))
    (λ _, async_ret []).

(** The query object [mapped] that [getSesiones] builds from its argument:
    [pelicula_id] is copied to [pelicula] when only the former is set, then
    removed. *)
Definition mapped (params : option (list (string * JsVal)))
  : list (string * JsVal) :=
  let mapped := default [] params in
  let mapped :=
    if truthy (obj_get mapped "pelicula_id") && negb (truthy (obj_get mapped "pelicula"))
    then obj_set mapped "pelicula" (obj_get mapped "pelicula_id")
    else mapped in
  obj_delete mapped "pelicula_id".

Definition getSesiones (params : option (list (string * JsVal)))
  : Async W (list JsVal) :=
  try_catch
    (await data ← api_get SesionesList (mapped params) ;;
     lift_result (unwrap data))
    (λ _, async_ret []).

(** The [for ... of] loop of [getAsientos]: rows that are arrays are
    spread into the accumulator, anything else is skipped. *)
Fixpoint push_filas (layout : list JsVal) (asientos : list JsVal) : list JsVal :=
  match layout with
  | [] => asientos
  | JArr fila :: rest => push_filas rest (asientos ++ fila)
  | _ :: rest => push_filas rest asientos
  end.

Definition getAsientos (sesionId : Z) (includeEstado : bool)
  : Async W (list JsVal) :=
  try_catch
    (let params := params_asientos includeEstado in
     await data ← api_get (SesionAsientos sesionId) params ;;
     await layout0 ← lift_result (get_prop_opt data "layout") ;;
     let layout := js_or layout0 (JArr []) in
     await filas ← lift_result (iterate layout) ;;
     async_ret (push_filas filas []))
    (λ _, async_ret []).

(** [error?.response?.status]. *)
Definition error_status (error : Thrown) : option Z :=
  match error with
  | AxiosError _ (Some r) => Some (status r)
  | _ => None
  end.

Definition crearEntrada (payload : Payload) : Async W Entrada :=
  try_catch
    (api_post_entradas payload)
    (λ error,
       let st := error_status error in
       if bool_decide (st = Some 400) || bool_decide (st = Some 409)
       then async_throw (Error "Ese asiento ya no está disponible")
       else async_throw (Error "Error al crear la reserva")).

Definition pagarEntrada (id : Z) : Async W Entrada :=
  try_catch
    (api_post_pagar id)
    (λ _, async_throw (Error "Error al procesar el pago")).

End Client.

(** ** The cinema context: state, actions, reducer *)

Record Pelicula : Type := mkPelicula {
  pel_id : Z;
  pel_titulo : string;
  pel_poster : option string;
  pel_clasificacion : option string
}.

Record Sesion : Type := mkSesion {
  ses_id : Z;
  ses_pelicula_id : Z;
  ses_fecha : string;
  ses_hora : string;
  ses_sala : string;
  ses_disponibles : Z;
  ses_total : Z
}.

Record CinemaState : Type := mkCinemaState {
  pelicula : option Pelicula;
  sesion_actual : option Sesion;
  asientosSeleccionados : list Asiento;
  entradasCreadas : list Entrada
}.

Inductive CinemaAction : Type :=
| SET_PELICULA (payload : Pelicula)
| SET_SESION (payload : Sesion)
| TOGGLE_ASIENTO (payload : Asiento)
| CLEAR_ASIENTOS
| SET_ENTRADAS_CREADAS (payload : list Entrada)
| RESET.

Definition initialState : CinemaState :=
  {| pelicula := None;
     sesion_actual := None;
     asientosSeleccionados := [];
     entradasCreadas := [] |}.

(** The test both callbacks of the reducer and [isAsientoSeleccionado] apply:
    [a.fila === b.fila && a.numero === b.numero]. *)
Definition mismo_asiento (a b : Asiento) : bool :=
  String.eqb (a_fila a) (a_fila b) && Z.eqb (a_numero a) (a_numero b).

Definition cinemaReducer (state : CinemaState) (action : CinemaAction) : CinemaState :=
  match action with
  | SET_PELICULA payload =>
      {| pelicula := Some payload;
         sesion_actual := sesion_actual state;
         asientosSeleccionados := asientosSeleccionados state;
         entradasCreadas := entradasCreadas state |}
  | SET_SESION payload =>
      {| pelicula := pelicula state;
         sesion_actual := Some payload;
         asientosSeleccionados := asientosSeleccionados state;
         entradasCreadas := entradasCreadas state |}
  | TOGGLE_ASIENTO payload =>
      match List.find (λ a, mismo_asiento a payload) (asientosSeleccionados state) with
      | Some _ =>
          {| pelicula := pelicula state;
             sesion_actual := sesion_actual state;
             asientosSeleccionados :=
               List.filter (λ a, negb (mismo_asiento a payload))
                           (asientosSeleccionados state);
             entradasCreadas := entradasCreadas state |}
      | None =>
          {| pelicula := pelicula state;
             sesion_actual := sesion_actual state;
             asientosSeleccionados := asientosSeleccionados state ++ [payload];
             entradasCreadas := entradasCreadas state |}
      end
  | CLEAR_ASIENTOS =>
      {| pelicula := pelicula state;
         sesion_actual := sesion_actual state;
         asientosSeleccionados := [];
         entradasCreadas := entradasCreadas state |}
  | SET_ENTRADAS_CREADAS payload =>
      {| pelicula := pelicula state;
         sesion_actual := sesion_actual state;
         asientosSeleccionados := asientosSeleccionados state;
         entradasCreadas := payload |}
  | RESET => initialState
  end.

(** The seat coordinate of a selected seat. *)
Definition coordenada (a : Asiento) : string * Z := (a_fila a, a_numero a).

(** At most one selected entry per (fila, numero) pair. *)
Definition seleccion_unica (state : CinemaState) : Prop :=
  NoDup (coordenada <$> asientosSeleccionados state).

(** ** The seat page (component [Asientos]) *)

Record AsientosPage : Type := mkAsientosPage {
  asientos : list JsVal;
  loading : bool;
  error : option string;
  email_campo : string;
  creandoEntradas : bool;
  cinema : CinemaState;
  ruta : option string
}.

Definition setAsientos (v : list JsVal) (p : AsientosPage) : AsientosPage :=
  {| asientos := v; loading := loading p; error := error p;
     email_campo := email_campo p; creandoEntradas := creandoEntradas p;
     cinema := cinema p; ruta := ruta p |}.
Definition setLoading (v : bool) (p : AsientosPage) : AsientosPage :=
  {| asientos := asientos p; loading := v; error := error p;
     email_campo := email_campo p; creandoEntradas := creandoEntradas p;
     cinema := cinema p; ruta := ruta p |}.
Definition setError (v : option string) (p : AsientosPage) : AsientosPage :=
  {| asientos := asientos p; loading := loading p; error := v;
     email_campo := email_campo p; creandoEntradas := creandoEntradas p;
     cinema := cinema p; ruta := ruta p |}.
Definition setCreandoEntradas (v : bool) (p : AsientosPage) : AsientosPage :=
  {| asientos := asientos p; loading := loading p; error := error p;
     email_campo := email_campo p; creandoEntradas := v;
     cinema := cinema p; ruta := ruta p |}.
(** [dispatch] of the context, as seen from the page. *)
Definition dispatch (action : CinemaAction) (p : AsientosPage) : AsientosPage :=
  {| asientos := asientos p; loading := loading p; error := error p;
     email_campo := email_campo p; creandoEntradas := creandoEntradas p;
     cinema := cinemaReducer (cinema p) action; ruta := ruta p |}.
Definition router_push (url : string) (p : AsientosPage) : AsientosPage :=
  {| asientos := asientos p; loading := loading p; error := error p;
     email_campo := email_campo p; creandoEntradas := creandoEntradas p;
     cinema := cinema p; ruta := Some url |}.

Definition isAsientoSeleccionado (state : CinemaState) (asiento : Asiento) : bool :=
  existsb (λ a, mismo_asiento a asiento) (asientosSeleccionados state).

(** [String.prototype.trim], on the ASCII white space and line terminators. *)
Definition is_space (c : ascii) : bool :=
  let n := nat_of_ascii c in
  ((9 <=? n) && (n <=? 13))%nat || (n =? 32)%nat.

Fixpoint trim_start (s : string) : string :=
  match s with
  | String c rest => if is_space c then trim_start rest else s
  | EmptyString => EmptyString
  end.

Fixpoint trim_end (s : string) : string :=
  match s with
  | EmptyString => EmptyString
  | String c rest =>
      match trim_end rest with
      | EmptyString => if is_space c then EmptyString else String c EmptyString
      | rest' => String c rest'
      end
  end.

Definition trim (s : string) : string := trim_end (trim_start s).

(** [err.message]. *)
Definition message (e : Thrown) : string :=
  match e with
  | AxiosError m _ => m
  | Error m => m
  | TypeError m => m
  end.

Section SeatPage.
Context {W : Type} `{Api W}.

(** [sesionId] stands for [Number.parseInt(sesionId)] of the page's prop. *)
Definition cargarAsientos (sesionId : Z) (p : AsientosPage) (w : W) : W * AsientosPage :=
  let p := setError None (setLoading true p) in
  match getAsientos sesionId true w with
  | (w', Ok data) => (w', setLoading false (setAsientos data p))
  | (w', Throw _) =>
      (w', setLoading false (setError (Some "Error al cargar los asientos") p))
  end.

(** The [for (const asiento of state.asientosSeleccionados)] loop of
    [handleConfirmarSeleccion].  It stops at the first [crearEntrada] that
    throws and hands the error to the [catch] of that iteration; otherwise
    it ends with the collected [entradas] and [hasSimulatedEntries].  Every
    throw of the loop body is caught there, so the outer [catch] of the
    handler is never entered. *)
Fixpoint crear_entradas (sesionId : Z) (correo : string)
    (pendientes : list Asiento) (entradas : list Entrada)
    (hasSimulatedEntries : bool) (w : W)
  : W * (Thrown + list Entrada * bool) :=
  match pendientes with
  | [] => (w, inr (entradas, hasSimulatedEntries))
  | asiento :: resto =>
      match crearEntrada {| p_sesion := sesionId;
                            p_fila := a_fila asiento;
                            p_numero := a_numero asiento;
                            p_email := correo |} w with
      | (w', Ok entrada) =>
          crear_entradas sesionId correo resto (entradas ++ [entrada])
            (if simulated entrada then true else hasSimulatedEntries) w'
      | (w', Throw err) => (w', inl err)
      end
  end.

Definition con_isDemo (demo : bool) (e : Entrada) : Entrada :=
  {| id := id e; sesion := sesion e; fila := fila e; numero := numero e;
     email := email e; estado := estado e;
     etiqueta_asiento := etiqueta_asiento e; creada_en := creada_en e;
     pelicula_e := pelicula_e e; hora_e := hora_e e; sala_e := sala_e e;
     simulated := simulated e; isDemo := demo |}.

Definition handleConfirmarSeleccion (sesionId : Z) (p : AsientosPage) (w : W)
  : W * AsientosPage :=
  if (length (asientosSeleccionados (cinema p)) =? 0)%nat then
    (w, setError (Some "Debe seleccionar al menos un asiento") p)
  else if String.eqb (trim (email_campo p)) "" then
    (w, setError (Some "El email es requerido") p)
  else
    let p1 := setError None (setCreandoEntradas true p) in
    match crear_entradas sesionId (trim (email_campo p))
            (asientosSeleccionados (cinema p)) [] false w with
    | (w', inl err) =>
        let msg := if String.eqb (message err) "" then "Error al crear la entrada"
                   else message err in
        let p2 := setError (Some msg) p1 in
        let '(w'', p3) := cargarAsientos sesionId p2 w' in
        (w'', setCreandoEntradas false p3)
    | (w', inr (entradas, hasSimulatedEntries)) =>
        let p2 := dispatch (SET_ENTRADAS_CREADAS
                              (con_isDemo hasSimulatedEntries <$> entradas)) p1 in
        let p3 := dispatch CLEAR_ASIENTOS p2 in
        let p4 := router_push "/confirmacion" p3 in
        (w', setCreandoEntradas false p4)
    end.

End SeatPage.

(** ** The confirmation page (component [Confirmacion]) *)

Record ConfirmacionPage : Type := mkConfirmacionPage {
  pagandoEntradas : gset Z;
  c_error : option string;
  c_cinema : CinemaState
}.

Definition con_estado (s : EstadoEntrada) (e : Entrada) : Entrada :=
  {| id := id e; sesion := sesion e; fila := fila e; numero := numero e;
     email := email e; estado := s;
     etiqueta_asiento := etiqueta_asiento e; creada_en := creada_en e;
     pelicula_e := pelicula_e e; hora_e := hora_e e; sala_e := sala_e e;
     simulated := simulated e; isDemo := isDemo e |}.

(** The list [handlePagar] computes after a successful payment:
    [entradasCreadas.map(e => e.id === entradaId ? {...e, estado: "pagada"} : e)]. *)
Definition entradasActualizadas (entradaId : Z) (entradasCreadas : list Entrada)
  : list Entrada :=
  (λ entrada, if Z.eqb (id entrada) entradaId then con_estado pagada entrada
              else entrada) <$> entradasCreadas.

(** [handlePagar] up to its [await]: the ticket is flagged as being paid and
    the error is cleared; the request leaves, the page stays interactive. *)
Definition handlePagar_antes (entradaId : Z) (p : ConfirmacionPage) : ConfirmacionPage :=
  {| pagandoEntradas := {[ entradaId ]} ∪ pagandoEntradas p;
     c_error := None;
     c_cinema := c_cinema p |}.

(** [handlePagar] from its [await] on, run on the page as it is when the
    request settles.  [capturadas] is the [state.entradasCreadas] of the
    render whose closure the handler is: that list, and not the one the
    context holds by now, is what the handler maps and writes back. *)
Definition handlePagar_despues (entradaId : Z) (capturadas : list Entrada)
    (resultado : result Entrada) (p : ConfirmacionPage) : ConfirmacionPage :=
  match resultado with
  | Ok entradaPagada =>
      {| pagandoEntradas := pagandoEntradas p ∖ {[ entradaId ]};
         c_error := c_error p;
         c_cinema :=
           cinemaReducer (c_cinema p)
             (SET_ENTRADAS_CREADAS (entradasActualizadas entradaId capturadas)) |}
  | Throw _ =>
      {| pagandoEntradas := pagandoEntradas p ∖ {[ entradaId ]};
         c_error := Some "Error al procesar el pago";
         c_cinema := c_cinema p |}
  end.

Section ConfirmationPage.
Context {W : Type} `{Api W}.

(** One payment run from click to answer with nothing happening on the page
    in between, so that the list captured by the closure is the list of the
    context. *)
Definition handlePagar (entradaId : Z) (p : ConfirmacionPage) (w : W)
  : W * ConfirmacionPage :=
  match pagarEntrada entradaId w with
  | (w', resultado) =>
      (w', handlePagar_despues entradaId (entradasCreadas (c_cinema p)) resultado
             (handlePagar_antes entradaId p))
  end.

(** Two payments that overlap: "Pagar" is clicked for ticket [i] and then,
    before the answer for [i] has arrived, for ticket [j] (only the button of
    the ticket being paid is disabled); the answers arrive in the order of
    the clicks.  Both handlers are closures of renders that took place
    before any answer, so both captured the list the context held then.
    The result is the page after the first answer and the page after the
    second. *)
Definition pagos_solapados (i j : Z) (p : ConfirmacionPage) (w : W)
  : W * ConfirmacionPage * ConfirmacionPage :=
  let capturadas_i := entradasCreadas (c_cinema p) in
  let p1 := handlePagar_antes i p in
  let '(w1, resultado_i) := pagarEntrada i w in
  let capturadas_j := entradasCreadas (c_cinema p1) in
  let p2 := handlePagar_antes j p1 in
  let '(w2, resultado_j) := pagarEntrada j w1 in
  let p3 := handlePagar_despues i capturadas_i resultado_i p2 in
  let p4 := handlePagar_despues j capturadas_j resultado_j p3 in
  (w2, p3, p4).

End ConfirmationPage.

(** ** The seat map as the seat page lays it out *)

(** [asientos.reduce(...)]: seats grouped by row label, each group in the
    order of arrival. *)
Definition asientosPorFila_reduce (asientos : list Asiento)
  : gmap string (list Asiento) :=
  foldl (λ (acc : gmap string (list Asiento)) asiento,
           <[ a_fila asiento :=
                (default [] (acc !! a_fila asiento) ++ [asiento])%list ]> acc)
        ∅ asientos.

(** The comparator [(a, b) => a.numero - b.numero] orders by seat number.
    [Array.prototype.sort] is stable, and so is [merge_sort]. *)
Definition por_numero (a b : Asiento) : Prop := a_numero a ≤ a_numero b.

#[local] Instance por_numero_dec a b : Decision (por_numero a b).
Proof. unfold por_numero. apply _. Defined.

(** Each group after [asientosPorFila[fila].sort(...)]. *)
Definition asientosPorFila (asientos : list Asiento) : gmap string (list Asiento) :=
  merge_sort por_numero <$> asientosPorFila_reduce asientos.

(** ** Seats on the wire *)

Definition estado_str (e : EstadoAsiento) : string :=
  match e with
  | libre => "libre"
  | reservada_a => "reservada"
  | pagada_a => "pagada"
  end.

(** The JSON object the client types as [Asiento]. *)
Definition js_of_asiento (a : Asiento) : JsVal :=
  JObj [("fila", JStr (a_fila a)); ("numero", JNum (a_numero a));
        ("estado", JStr (estado_str (a_estado a)))].

(** The body of [GET /sesiones/{id}/asientos/?include=estado] for a grid of
    typed seats. *)
Definition js_of_layout (grid : list (list Asiento)) : JsVal :=
  JObj [("layout", JArr ((λ fila : list Asiento, JArr (js_of_asiento <$> fila)) <$> grid))].

(** ** The Ticket Lifecycle Manager *)

Module Backend.

(** Modelled from the spec: the states of a Ticket (section 3), the status a
    seat-map cell reports (section 4.1) and the failure kinds of section 7.
    The server code that defines them is not among the sources. *)
Inductive TicketState : Type := Reserved | Paid.
Inductive SeatStatus : Type := free | reserved | paid.
Inductive Failure : Type := ValidationError | SeatConflict | NotFound.

(** Modelled from the spec: Showing and Ticket of section 3, reduced to the
    members this slice reads. *)

Record Showing : Type := mkShowing {
  showingId : Z;
  rowCount : nat;
  columnCount : nat
}.

Record Ticket : Type := mkTicket {
  ticketId : Z;
  showing : Z;
  row : string;
  column : Z;
  contact : string;
  state : TicketState
}.

Record Cell : Type := mkCell {
  cell_row : string;
  cell_column : Z;
  cell_status : SeatStatus
}.

(** Modelled from the spec: the persistence boundary of section 6, a store
    of Showings and Tickets, together with the listing payloads that are
    opaque reference data for this slice.  The Django models and the
    database are not among the sources. *)
Record Store : Type := mkStore {
  showings : list Showing;
  tickets : list Ticket;
  peliculas_json : JsVal;
  sesiones_json : JsVal
}.

Definition with_tickets (ts : list Ticket) (st : Store) : Store :=
  {| showings := showings st; tickets := ts;
     peliculas_json := peliculas_json st; sesiones_json := sesiones_json st |}.

Definition find_showing (st : Store) (sid : Z) : option Showing :=
  List.find (λ sh, Z.eqb (showingId sh) sid) (showings st).

Definition en_asiento (sid : Z) (r : string) (c : Z) (t : Ticket) : bool :=
  Z.eqb (showing t) sid && String.eqb (row t) r && Z.eqb (column t) c.

Definition find_ticket (ts : list Ticket) (sid : Z) (r : string) (c : Z)
  : option Ticket :=
  List.find (en_asiento sid r c) ts.

(** Modelled from the spec: row labels are case-normalized to upper case on
    write (section 3). *)
Definition upper_ascii (c : ascii) : ascii :=
  let n := nat_of_ascii c in
  if ((97 <=? n) && (n <=? 122))%nat then ascii_of_nat (n - 32) else c.

Fixpoint uppercase (s : string) : string :=
  match s with
  | EmptyString => EmptyString
  | String c rest => String (upper_ascii c) (uppercase rest)
  end.

(** Modelled from the spec: the label of the row of index [i], the letters
    of the alphabet in order (section 3). *)
Definition row_label (i : nat) : string :=
  String (ascii_of_nat (65 + i)) EmptyString.

(** Modelled from the spec: a row label is valid when it is one of the first
    [rowCount] letters of the alphabet (section 3, Ticket invariants). *)
Definition valid_row (r : string) (rows : nat) : bool :=
  match r with
  | String c EmptyString =>
      let n := nat_of_ascii c in
      ((65 <=? n) && (n <=? 90) && (n <? 65 + rows))%nat
  | _ => false
  end.

Definition next_id (ts : list Ticket) : Z :=
  1 + foldr (λ t m, Z.max (ticketId t) m) 0 ts.

(** Modelled from the spec: operation reserve of section 4.1.  Validation
    comes first and never reaches the uniqueness check; the insert fails
    with [SeatConflict] when the seat is taken; a new Ticket is [Reserved]
    and carries the row label in upper case.  A showing that does not exist
    is a failed validation, create-ticket having no other failure kinds
    (section 6). *)
Definition reserve (st : Store) (sid : Z) (r : string) (c : Z) (mail : string)
  : Store * (Failure + Ticket) :=
  match find_showing st sid with
  | None => (st, inl ValidationError)
  | Some sh =>
      let r' := uppercase r in
      if String.eqb mail "" then (st, inl ValidationError)
      else if negb ((1 <=? c) && (c <=? Z.of_nat (columnCount sh)))
      then (st, inl ValidationError)
      else if negb (valid_row r' (rowCount sh)) then (st, inl ValidationError)
      else match find_ticket (tickets st) sid r' c with
           | Some _ => (st, inl SeatConflict)
           | None =>
               let t := {| ticketId := next_id (tickets st); showing := sid;
                           row := r'; column := c; contact := mail;
                           state := Reserved |} in
               (with_tickets (tickets st ++ [t]) st, inr t)
           end
  end.

Definition set_paid (t : Ticket) : Ticket :=
  {| ticketId := ticketId t; showing := showing t; row := row t;
     column := column t; contact := contact t; state := Paid |}.

(** Modelled from the spec: operation pay of section 4.1.  A Ticket already
    [Paid] is returned unchanged and the call succeeds; a [Reserved] one
    becomes [Paid] and is persisted; an unknown id is [NotFound]. *)
Definition pay (st : Store) (tid : Z) : Store * (Failure + Ticket) :=
  match List.find (λ t, Z.eqb (ticketId t) tid) (tickets st) with
  | None => (st, inl NotFound)
  | Some t =>
      match state t with
      | Paid => (st, inr t)
      | Reserved =>
          (with_tickets
             ((λ t', if Z.eqb (ticketId t') tid then set_paid t' else t')
                <$> tickets st) st,
           inr (set_paid t))
      end
  end.

Definition status_of (ts : list Ticket) (sid : Z) (r : string) (c : Z)
  : SeatStatus :=
  match find_ticket ts sid r c with
  | None => free
  | Some t => match state t with Reserved => reserved | Paid => paid end
  end.

(** Modelled from the spec: the seat-map projection of section 4.1, the
    declared grid of the Showing joined with its Tickets, recomputed on
    each read. *)
Definition seat_map (st : Store) (sid : Z) : Failure + list (list Cell) :=
  match find_showing st sid with
  | None => inl NotFound
  | Some sh =>
      inr ((λ i, (λ j, let c := Z.of_nat j in
                       {| cell_row := row_label i; cell_column := c;
                          cell_status := status_of (tickets st) sid (row_label i) c |})
                   <$> seq 1 (columnCount sh))
             <$> seq 0 (rowCount sh))
  end.

(** *** The HTTP surface the client talks to *)

(** Modelled from the spec: [ValidationError] maps to 400 and [SeatConflict]
    to 409 (section 4.1); [NotFound] is given the usual 404. *)
Definition http_status (f : Failure) : Z :=
  match f with
  | ValidationError => 400
  | SeatConflict => 409
  | NotFound => 404
  end.

Definition rejected {A} (f : Failure) : result A :=
  Throw (AxiosError "Request failed" (Some {| status := http_status f; data := JNull |})).

Definition entrada_of_ticket (t : Ticket) : Entrada :=
  {| id := ticketId t; sesion := showing t; fila := row t; numero := column t;
     email := contact t;
     estado := match state t with Reserved => reservada | Paid => pagada end;
     etiqueta_asiento := None; creada_en := None; pelicula_e := None;
     hora_e := None; sala_e := None; simulated := false; isDemo := false |}.

Definition asiento_of_cell (c : Cell) : Asiento :=
  {| a_fila := cell_row c; a_numero := cell_column c;
     a_estado := match cell_status c with
                 | free => libre | reserved => reservada_a | paid => pagada_a
                 end |}.

(** Summary mode: a boolean occupied flag per cell. *)
Definition js_of_cell_summary (c : Cell) : JsVal :=
  JObj [("fila", JStr (cell_row c)); ("numero", JNum (cell_column c));
        ("ocupado", JBool (match cell_status c with free => false | _ => true end))].

Definition wants_estado (params : list (string * JsVal)) : bool :=
  match obj_get params "include" with
  | JStr s => String.eqb s "estado"
  | _ => false
  end.

Definition asientos_of_grid (grid : list (list Cell)) : list (list Asiento) :=
  (λ fila : list Cell, asiento_of_cell <$> fila) <$> grid.

Definition js_of_summary (grid : list (list Cell)) : JsVal :=
  JObj [("layout",
         JArr ((λ fila : list Cell, JArr (js_of_cell_summary <$> fila)) <$> grid))].

(** Modelled from the spec: the API surface of section 6 with the status
    codes of sections 4.1 and 7, in the wire shapes the client reads. *)
#[global] Instance api : Api Store := {|
  api_get ep params st :=
    match ep with
    | PeliculasList => (st, Ok (peliculas_json st))
    | SesionesList => (st, Ok (sesiones_json st))
    | SesionAsientos sid =>
        match seat_map st sid with
        | inl f => (st, rejected f)
        | inr grid =>
            if wants_estado params
            then (st, Ok (js_of_layout (asientos_of_grid grid)))
            else (st, Ok (js_of_summary grid))
        end
    end;
  api_post_entradas payload st :=
    match reserve st (p_sesion payload) (p_fila payload) (p_numero payload)
                  (p_email payload) with
    | (st', inr t) => (st', Ok (entrada_of_ticket t))
    | (st', inl f) => (st', rejected f)
    end;
  api_post_pagar tid st :=
    match pay st tid with
    | (st', inr t) => (st', Ok (entrada_of_ticket t))
    | (st', inl f) => (st', rejected f)
    end
|}.

(** The ticket the manager creates for a selected seat. *)
Definition ticket_de (sid : Z) (t : Ticket) (a : Asiento) : Prop :=
  showing t = sid ∧ row t = uppercase (a_fila a) ∧ column t = a_numero a ∧
  state t = Reserved.

End Backend.

(** ** A scripted server, for closed examples *)

Module Guion.

(** A stateless server that answers each request as its script says. *)
Record World : Type := mkWorld {
  on_get : Endpoint → result JsVal;
  on_entradas : Payload → result Entrada;
  on_pagar : Z → result Entrada
}.

#[global] Instance api : Api World := {|
  api_get ep _ w := (w, on_get w ep);
  api_post_entradas payload w := (w, on_entradas w payload);
  api_post_pagar tid w := (w, on_pagar w tid)
|}.

End Guion.

(** ** Specification predicates and sample data *)

Definition asiento_A1 : Asiento := {| a_fila := "A"; a_numero := 1; a_estado := libre |}.
Definition asiento_A2 : Asiento := {| a_fila := "A"; a_numero := 2; a_estado := libre |}.

Definition entrada_1 : Entrada :=
  {| id := 1; sesion := 1; fila := "A"; numero := 5; email := "x@y.com";
     estado := reservada; etiqueta_asiento := None; creada_en := None;
     pelicula_e := None; hora_e := None; sala_e := None;
     simulated := false; isDemo := false |}.

Definition entrada_2 : Entrada :=
  {| id := 2; sesion := 1; fila := "A"; numero := 6; email := "x@y.com";
     estado := reservada; etiqueta_asiento := None; creada_en := None;
     pelicula_e := None; hora_e := None; sala_e := None;
     simulated := false; isDemo := false |}.

Definition pagina_confirmacion : ConfirmacionPage :=
  {| pagandoEntradas := ∅; c_error := None;
     c_cinema := cinemaReducer initialState (SET_ENTRADAS_CREADAS [entrada_1; entrada_2]) |}.

(** A server on which every payment succeeds. *)
Definition servidor_cobra : Guion.World :=
  {| Guion.on_get := λ _, Ok JNull;
     Guion.on_entradas := λ _, Throw (AxiosError "Network Error" None);
     Guion.on_pagar := λ tid, Ok (con_estado pagada entrada_1) |}.

Definition ticket_pagado : Backend.Ticket :=
  {| Backend.ticketId := 1; Backend.showing := 1; Backend.row := "A";
     Backend.column := 5; Backend.contact := "x@y.com";
     Backend.state := Backend.Paid |}.

Definition sala_pagada : Backend.Store :=
  {| Backend.showings := [ {| Backend.showingId := 1; Backend.rowCount := 2;
                              Backend.columnCount := 5 |} ];
     Backend.tickets := [ticket_pagado];
     Backend.peliculas_json := JArr [];
     Backend.sesiones_json := JArr [] |}.

Definition asiento_no_disponible : Thrown := Error "Ese asiento ya no está disponible".
Definition error_reserva : Thrown := Error "Error al crear la reserva".
Definition error_pago : Thrown := Error "Error al procesar el pago".

Definition payload_a5 : Payload :=
  {| p_sesion := 1; p_fila := "a"; p_numero := 5; p_email := "x@y.com" |}.
Definition payload_a0 : Payload :=
  {| p_sesion := 1; p_fila := "a"; p_numero := 0; p_email := "x@y.com" |}.

(** A server that rejects seat number 0 as malformed (400) and every other
    seat as already taken (409). *)
Definition servidor_rechaza : Guion.World :=
  {| Guion.on_get := λ _, Ok JNull;
     Guion.on_entradas := λ p,
       if Z.eqb (p_numero p) 0
       then Throw (AxiosError "Request failed with status code 400"
                     (Some {| status := 400; data := JNull |}))
       else Throw (AxiosError "Request failed with status code 409"
                     (Some {| status := 409; data := JNull |}));
     Guion.on_pagar := λ _, Throw (AxiosError "Network Error" None) |}.

(** A server that answers every write with a 409. *)
Definition servidor_409 : Guion.World :=
  {| Guion.on_get := λ _, Ok JNull;
     Guion.on_entradas := λ _,
       Throw (AxiosError "Request failed with status code 409"
                (Some {| status := 409; data := JNull |}));
     Guion.on_pagar := λ _,
       Throw (AxiosError "Request failed with status code 409"
                (Some {| status := 409; data := JNull |})) |}.

(** A server on which every payment succeeds and answers the paid ticket. *)
Definition servidor_cobra_todo : Guion.World :=
  {| Guion.on_get := λ _, Ok JNull;
     Guion.on_entradas := λ _, Throw (AxiosError "Network Error" None);
     Guion.on_pagar := λ tid,
       Ok {| id := tid; sesion := 1; fila := "A"; numero := 4 + tid;
             email := "x@y.com"; estado := pagada;
             etiqueta_asiento := None; creada_en := None; pelicula_e := None;
             hora_e := None; sala_e := None; simulated := false; isDemo := false |} |}.

(** A server that cannot be reached. *)
Definition servidor_caido : Guion.World :=
  {| Guion.on_get := λ _, Throw (AxiosError "Network Error" None);
     Guion.on_entradas := λ _, Throw (AxiosError "Network Error" None);
     Guion.on_pagar := λ _, Throw (AxiosError "Network Error" None) |}.

(** The list a payload carries, if it is list-shaped: an array, or an object
    whose [results] member is an array. *)
Definition lista_de (data : JsVal) : option (list JsVal) :=
  match data with
  | JArr items => Some items
  | JObj props =>
      match obj_get props "results" with
      | JArr items => Some items
      | _ => None
      end
  | _ => None
  end.

(** The seat rows a seat-map payload carries, if its [layout] is an array. *)
Definition layout_de (data : JsVal) : option (list JsVal) :=
  match data with
  | JObj props =>
      match obj_get props "layout" with
      | JArr filas => Some filas
      | _ => None
      end
  | _ => None
  end.

(** A server that answers every listing with a non-list payload. *)
Definition servidor_raro : Guion.World :=
  {| Guion.on_get := λ ep,
       match ep with
       | PeliculasList => Ok (JObj [("detail", JStr "oops")])
       | SesionesList => Ok (JNum 7)
       | SesionAsientos _ => Ok (JObj [("layout", JNum 3)])
       end;
     Guion.on_entradas := λ _, Throw (AxiosError "Network Error" None);
     Guion.on_pagar := λ _, Throw (AxiosError "Network Error" None) |}.

(** A grid of [R] rows of [C] cells each. *)
Definition rejilla {A} (R C : nat) (grid : list (list A)) : Prop :=
  length grid = R ∧ Forall (λ fila, length fila = C) grid.

(** The cell in row [i], column [j] (both from 0) of the layout carries the
    coordinate (label of row [i], [j + 1]). *)
Definition coordenadas_propias (label : nat → string) (grid : list (list Asiento))
  : Prop :=
  ∀ i j fila a, grid !! i = Some fila → fila !! j = Some a →
                coordenada a = (label i, Z.of_nat (S j)).

Definition rejilla_2x2 : list (list Asiento) :=
  [ [ {| a_fila := "A"; a_numero := 1; a_estado := libre |};
      {| a_fila := "A"; a_numero := 2; a_estado := reservada_a |} ];
    [ {| a_fila := "B"; a_numero := 1; a_estado := libre |};
      {| a_fila := "B"; a_numero := 2; a_estado := pagada_a |} ] ].

Definition servidor_2x2 : Guion.World :=
  {| Guion.on_get := λ _, Ok (js_of_layout rejilla_2x2);
     Guion.on_entradas := λ _, Throw (AxiosError "Network Error" None);
     Guion.on_pagar := λ _, Throw (AxiosError "Network Error" None) |}.

Definition sala_2x2 : Backend.Store :=
  {| Backend.showings := [ {| Backend.showingId := 1; Backend.rowCount := 2;
                              Backend.columnCount := 2 |} ];
     Backend.tickets := [];
     Backend.peliculas_json := JArr [];
     Backend.sesiones_json := JObj [("count", JNum 0); ("results", JArr [])] |}.

Definition estados (r : Backend.Failure + list (list Backend.Cell))
  : option (list (list Backend.SeatStatus)) :=
  match r with
  | inr grid => Some ((λ fila : list Backend.Cell, Backend.cell_status <$> fila) <$> grid)
  | inl _ => None
  end.

Definition sala_5x8 : Backend.Store :=
  {| Backend.showings := [ {| Backend.showingId := 1; Backend.rowCount := 5;
                              Backend.columnCount := 8 |} ];
     Backend.tickets := [];
     Backend.peliculas_json := JArr [];
     Backend.sesiones_json := JArr [] |}.

(** Showing 1 with seat (A, 2) already taken. *)
Definition sala_a2_ocupado : Backend.Store :=
  {| Backend.showings := [ {| Backend.showingId := 1; Backend.rowCount := 2;
                              Backend.columnCount := 2 |} ];
     Backend.tickets := [ {| Backend.ticketId := 1; Backend.showing := 1;
                             Backend.row := "A"; Backend.column := 2;
                             Backend.contact := "otro@y.com";
                             Backend.state := Backend.Reserved |} ];
     Backend.peliculas_json := JArr [];
     Backend.sesiones_json := JArr [] |}.

Definition pagina_seleccion : AsientosPage :=
  {| asientos := []; loading := false; error := None;
     email_campo := "x@y.com"; creandoEntradas := false;
     cinema := cinemaReducer (cinemaReducer initialState (TOGGLE_ASIENTO asiento_A1))
                             (TOGGLE_ASIENTO asiento_A2);
     ruta := None |}.

Definition de_fila (k : string) (asientos : list Asiento) : list Asiento :=
  List.filter (λ a, String.eqb (a_fila a) k) asientos.

(** ** lib/auth.ts: tokens in [localStorage] *)

Definition ACCESS_KEY : string := "auth_access".
Definition REFRESH_KEY : string := "auth_refresh".

(** The browser side of the module: whether [window] is defined (it is not
    while rendering on the server) and the contents of [localStorage]. *)
Record Browser : Type := mkBrowser {
  has_window : bool;
  localStorage : gmap string string
}.

(** The argument of [setTokens]: [{ access: string; refresh?: string }]. *)
Record Tokens : Type := mkTokens {
  access : string;
  refresh : option string
}.

Definition getAccess (b : Browser) : option string :=
  if negb (has_window b) then None else localStorage b !! ACCESS_KEY.

Definition getRefresh (b : Browser) : option string :=
  if negb (has_window b) then None else localStorage b !! REFRESH_KEY.

(** Truthiness of an optional string: [undefined], [null] and [""] are falsy. *)
Definition truthy_str (s : option string) : bool :=
  match s with
  | Some s => negb (String.eqb s "")
  | None => false
  end.

Definition setTokens (tokens : Tokens) (b : Browser) : Browser :=
  if negb (has_window b) then b
  else
    let s1 := <[ ACCESS_KEY := access tokens ]> (localStorage b) in
    let s2 := match refresh tokens with
              | Some r => if truthy_str (Some r) then <[ REFRESH_KEY := r ]> s1 else s1
              | None => s1
              end in
    {| has_window := has_window b; localStorage := s2 |}.

Definition clearTokens (b : Browser) : Browser :=
  if negb (has_window b) then b
  else {| has_window := has_window b;
          localStorage := delete REFRESH_KEY (delete ACCESS_KEY (localStorage b)) |}.

(** The two token requests, [POST /token/] answering [{ access, refresh }] and
    [POST /token/refresh/] answering [{ access }]. *)
Class AuthApi (W : Type) : Type := {
  post_token : string → string → Async W (string * string);
  post_token_refresh : string → Async W string
}.

Section Auth.
Context {W : Type} `{AuthApi W}.

Definition login (username password : string) : Async (W * Browser) (string * string) :=
  λ '(w, b),
    match post_token username password w with
    | (w', Ok (a, r)) =>
        ((w', setTokens {| access := a; refresh := Some r |} b), Ok (a, r))
    | (w', Throw e) => ((w', b), Throw e)
    end.

Definition refreshToken : Async (W * Browser) string :=
  λ '(w, b),
    let refresh := getRefresh b in
    if negb (truthy_str refresh) then ((w, b), Throw (Error "No refresh token"))
    else
      match post_token_refresh (default "" refresh) w with
      | (w', Ok a) => ((w', setTokens {| access := a; refresh := None |} b), Ok a)
      | (w', Throw e) => ((w', b), Throw e)
      end.

End Auth.

(** The check of the effect of [AuthProvider]:
    [typeof window !== "undefined" && !!localStorage.getItem("auth_access")]. *)
Definition AuthProvider_has (b : Browser) : bool :=
  has_window b && truthy_str (localStorage b !! "auth_access").

(** A scripted token server. *)
Module GuionAuth.

Record World : Type := mkWorld {
  on_token : string → string → result (string * string);
  on_refresh : string → result string
}.

#[global] Instance api : AuthApi World := {|
  post_token u p w := (w, on_token w u p);
  post_token_refresh r w := (w, on_refresh w r)
|}.

End GuionAuth.

(** ** The seat page: clicking a seat *)

Definition handleAsientoClick (asiento : Asiento) (p : AsientosPage) : AsientosPage :=
  match a_estado asiento with
  | libre => dispatch (TOGGLE_ASIENTO asiento) p
  | _ => p
  end.

(** The payload the loop of [handleConfirmarSeleccion] builds for a seat. *)
Definition payload_de (sesionId : Z) (correo : string) (asiento : Asiento) : Payload :=
  {| p_sesion := sesionId; p_fila := a_fila asiento;
     p_numero := a_numero asiento; p_email := correo |}.

(** A scripted server that records the bodies posted to [/entradas/]. *)
Module Registro.

Record World : Type := mkWorld {
  guion : Payload → result Entrada;
  enviados : list Payload
}.

#[global] Instance api : Api World := {|
  api_get _ _ w := (w, Ok JNull);
  api_post_entradas payload w :=
    ({| guion := guion w; enviados := enviados w ++ [payload] |}, guion w payload);
  api_post_pagar _ w := (w, Throw (AxiosError "Network Error" None))
|}.

Definition rechazado (w : World) (payload : Payload) : bool :=
  match guion w payload with Ok _ => false | Throw _ => true end.

(** The payloads up to the first one the script rejects, that one included. *)
Fixpoint hasta_rechazo (w : World) (payloads : list Payload) : list Payload :=
  match payloads with
  | [] => []
  | x :: rest => if rechazado w x then [x] else x :: hasta_rechazo w rest
  end.

End Registro.

(** ** The confirmation page: the demo banner *)

(** [state.entradasCreadas.some((entrada) => entrada.isDemo)]. *)
Definition hasSimulatedEntries (state : CinemaState) : bool :=
  existsb isDemo (entradasCreadas state).

(** ** The listing page (component [Cartelera]) *)

Record CarteleraPage : Type := mkCarteleraPage {
  ct_peliculas : list JsVal;
  ct_loading : bool;
  ct_error : option string;
  ct_busqueda : string
}.

(** [String.prototype.includes]. *)
Fixpoint includes (needle s : string) : bool :=
  String.prefix needle s ||
  match s with
  | EmptyString => false
  | String _ rest => includes needle rest
  end.

(** The [src] of a poster:
    [poster_url && !poster_url.includes("example.com") ? poster_url
     : "/abstract-movie-poster.png"]. *)
Definition poster_src (poster_url : option string) : string :=
  if truthy_str poster_url && negb (includes "example.com" (default "" poster_url))
  then default "" poster_url
  else "/abstract-movie-poster.png".

Section Listings.
Context {W : Type} `{Api W}.

Definition cargarPeliculas (search : option string) (p : CarteleraPage) (w : W)
  : W * CarteleraPage :=
  let params := if truthy_str search
                then Some [("search", JStr (default "" search))] else None in
  match getPeliculas params w with
  | (w', Ok data) =>
      (w', {| ct_peliculas := data; ct_loading := false; ct_error := None;
              ct_busqueda := ct_busqueda p |})
  | (w', Throw _) =>
      (w', {| ct_peliculas := []; ct_loading := false;
              ct_error := Some "Error al cargar las películas. Verifique que la API esté disponible en la URL configurada.";
              ct_busqueda := ct_busqueda p |})
  end.

Definition handleBuscar (p : CarteleraPage) (w : W) : W * CarteleraPage :=
  cargarPeliculas (Some (ct_busqueda p)) p w.

End Listings.

(** ** The showings page (component [Sesiones]) *)

Record SesionesPage : Type := mkSesionesPage {
  ss_sesiones : list JsVal;
  ss_loading : bool;
  ss_error : option string
}.

Section Showings.
Context {W : Type} `{Api W}.

(** [peliculaId] stands for [Number.parseInt(peliculaId)] of the page's prop,
    when that is a number. *)
Definition cargarSesiones (peliculaId : Z) (p : SesionesPage) (w : W)
  : W * SesionesPage :=
  match getSesiones (Some [("pelicula_id", JNum peliculaId)]) w with
  | (w', Ok data) =>
      (w', {| ss_sesiones := data; ss_loading := false; ss_error := None |})
  | (w', Throw _) =>
      (w', {| ss_sesiones := ss_sesiones p; ss_loading := false;
              ss_error := Some "Error al cargar las sesiones" |})
  end.

End Showings.

(** The rows of a layout that are arrays, the others dropped. *)
Definition filas_validas (layout : list JsVal) : list (list JsVal) :=
  omap (λ v, match v with JArr fila => Some fila | _ => None end) layout.

(** Sample browsers and a scripted token server. *)
Definition navegador_con_sesion : Browser :=
  {| has_window := true;
     localStorage := {[ "auth_access" := "a0"; "auth_refresh" := "r0"; "tema" := "oscuro" ]} |}.

Definition navegador_servidor : Browser :=
  {| has_window := false; localStorage := ∅ |}.

Definition navegador_vacio : Browser := {| has_window := true; localStorage := ∅ |}.

Definition servidor_tokens : GuionAuth.World :=
  {| GuionAuth.on_token := λ u p,
       if String.eqb p "secreto" then Ok ("a1", "r1")
       else Throw (AxiosError "Request failed with status code 401"
                     (Some {| status := 401; data := JNull |}));
     GuionAuth.on_refresh := λ r,
       if String.eqb r "r1" then Ok "a2"
       else Throw (AxiosError "Request failed with status code 401"
                     (Some {| status := 401; data := JNull |})) |}.

(** A recording server that rejects seat number 1 and accepts the others. *)
Definition registro_rechaza_1 : Registro.World :=
  {| Registro.guion := λ payload,
       if Z.eqb (p_numero payload) 1
       then Throw (AxiosError "Request failed with status code 409"
                     (Some {| status := 409; data := JNull |}))
       else Ok {| id := p_numero payload; sesion := p_sesion payload;
                  fila := p_fila payload; numero := p_numero payload;
                  email := p_email payload; estado := reservada;
                  etiqueta_asiento := None; creada_en := None; pelicula_e := None;
                  hora_e := None; sala_e := None; simulated := false; isDemo := false |};
     Registro.enviados := [] |}.

(** A server that accepts every reservation and marks seat number 2 as
    simulated. *)
Definition servidor_acepta : Guion.World :=
  {| Guion.on_get := λ _, Ok (js_of_layout rejilla_2x2);
     Guion.on_entradas := λ payload,
       Ok {| id := p_numero payload; sesion := p_sesion payload;
             fila := p_fila payload; numero := p_numero payload;
             email := p_email payload; estado := reservada;
             etiqueta_asiento := None; creada_en := None; pelicula_e := None;
             hora_e := None; sala_e := None;
             simulated := Z.eqb (p_numero payload) 2; isDemo := false |};
     Guion.on_pagar := λ _, Throw (AxiosError "Network Error" None) |}.

(** A server that answers a layout with rows that are not arrays. *)
Definition servidor_filas_raras : Guion.World :=
  {| Guion.on_get := λ _,
       Ok (JObj [("layout", JArr [ JNull; JArr [JNum 1; JNum 2]; JObj []; JArr [JNum 3] ])]);
     Guion.on_entradas := λ _, Throw (AxiosError "Network Error" None);
     Guion.on_pagar := λ _, Throw (AxiosError "Network Error" None) |}.

(** * Properties *)

(** ** The reducer keeps the selection free of duplicates *)

Lemma mismo_asiento_coordenada a b :
  mismo_asiento a b = true ↔ coordenada a = coordenada b.
Proof.
  unfold mismo_asiento, coordenada.
  rewrite andb_true_iff, String.eqb_eq, Z.eqb_eq.
  split; [intros [-> ->]; reflexivity | intros [= -> ->]; auto].
Qed.

Lemma find_mismo_None payload l :
  List.find (λ a, mismo_asiento a payload) l = None ↔
  coordenada payload ∉ coordenada <$> l.
Proof.
  induction l as [|x l IH]; simpl.
  - split; [intros _; apply not_elem_of_nil | reflexivity].
  - destruct (mismo_asiento x payload) eqn:E.
    + apply mismo_asiento_coordenada in E. rewrite E.
      split; [discriminate | intros Hn; exfalso; apply Hn; left].
    + rewrite IH, not_elem_of_cons.
      split; [intros Hn; split; [|exact Hn] | intros [_ Hn]; exact Hn].
      intros Heq. symmetry in Heq. apply mismo_asiento_coordenada in Heq.
      congruence.
Qed.

Lemma filter_otros_id payload l :
  coordenada payload ∉ coordenada <$> l →
  List.filter (λ a, negb (mismo_asiento a payload)) l = l.
Proof.
  induction l as [|x l IH]; simpl; [reflexivity|].
  rewrite not_elem_of_cons. intros [Hx Hl].
  destruct (mismo_asiento x payload) eqn:E; simpl.
  - apply mismo_asiento_coordenada in E. congruence.
  - f_equal. apply IH, Hl.
Qed.

Lemma NoDup_fmap_filter {A B} (f : A → B) (p : A → bool) (l : list A) :
  NoDup (f <$> l) → NoDup (f <$> List.filter p l).
Proof.
  induction l as [|x l IH]; simpl; [auto|].
  rewrite NoDup_cons. intros [Hx Hl].
  destruct (p x); simpl; [|auto].
  apply NoDup_cons. split; [|auto].
  intros Hin. apply Hx.
  apply list_elem_of_fmap in Hin as (y & -> & Hy).
  apply list_elem_of_fmap. exists y. split; [reflexivity|].
  apply list_elem_of_In. apply list_elem_of_In, filter_In in Hy. tauto.
Qed.

Lemma cinemaReducer_seleccion_unica state action :
  seleccion_unica state → seleccion_unica (cinemaReducer state action).
Proof.
  unfold seleccion_unica. intros Hinv.
  destruct action; simpl; try assumption; try apply NoDup_nil_2.
  destruct (List.find _ _) eqn:Hfind; simpl.
  - apply NoDup_fmap_filter, Hinv.
  - rewrite fmap_app. simpl.
    apply NoDup_app. split; [exact Hinv|]. split.
    + intros c Hc Hc'. apply list_elem_of_singleton in Hc'. subst c.
      apply find_mismo_None in Hfind. contradiction.
    + apply NoDup_singleton.
Qed.

(** C8: every action of [cinemaReducer] preserves "at most one selected entry
    per (fila, numero) pair", and the invariant holds in every state reached
    from [initialState] by any sequence of actions. *)
Theorem seleccion_unica_invariant :
  (∀ state action,
      seleccion_unica state → seleccion_unica (cinemaReducer state action)) ∧
  (∀ actions : list CinemaAction,
      seleccion_unica (foldl cinemaReducer initialState actions)).
Proof.
  split; [exact cinemaReducer_seleccion_unica|].
  intros actions.
  assert (Hgen : ∀ s, seleccion_unica s → seleccion_unica (foldl cinemaReducer s actions)).
  { induction actions as [|a actions IH]; intros s Hs; simpl; [exact Hs|].
    apply IH, cinemaReducer_seleccion_unica, Hs. }
  apply Hgen. apply NoDup_nil_2.
Qed.

Lemma seleccion_unica_invariant_witness :
  seleccion_unica (cinemaReducer (cinemaReducer initialState (TOGGLE_ASIENTO asiento_A1))
                                 (TOGGLE_ASIENTO asiento_A2)).
Proof.
  apply (proj1 seleccion_unica_invariant).
  apply (proj2 seleccion_unica_invariant [TOGGLE_ASIENTO asiento_A1]).
Defined.

(** ** Toggling a seat twice *)

(** C9: for a state with a duplicate-free selection and a seat that is not
    selected, [TOGGLE_ASIENTO] once appends exactly that seat at the end of
    [asientosSeleccionados], and twice gives back the original list (the
    other members of the state being untouched both times). *)
Theorem toggle_asiento_round_trip state asiento :
  seleccion_unica state →
  isAsientoSeleccionado state asiento = false →
  let una := cinemaReducer state (TOGGLE_ASIENTO asiento) in
  let dos := cinemaReducer una (TOGGLE_ASIENTO asiento) in
  asientosSeleccionados una = asientosSeleccionados state ++ [asiento] ∧
  asientosSeleccionados dos = asientosSeleccionados state ∧
  dos = state.
Proof.
  intros _ Hno.
  assert (Hnone : List.find (λ a, mismo_asiento a asiento) (asientosSeleccionados state) = None).
  { unfold isAsientoSeleccionado in Hno.
    destruct (List.find _ _) eqn:Hf; [|reflexivity].
    apply find_some in Hf as [Hin Hm].
    assert (existsb (λ a, mismo_asiento a asiento) (asientosSeleccionados state) = true)
      by (apply existsb_exists; eauto).
    congruence. }
  assert (Hself : mismo_asiento asiento asiento = true)
    by (apply mismo_asiento_coordenada; reflexivity).
  assert (Hfind2 : ∃ a, List.find (λ a, mismo_asiento a asiento)
                          (asientosSeleccionados state ++ [asiento]) = Some a).
  { destruct (List.find _ (_ ++ _)) eqn:Hf; [eauto|].
    exfalso. eapply find_none in Hf; [|apply in_or_app; right; left; reflexivity].
    simpl in Hf. congruence. }
  destruct Hfind2 as [a Hfind2].
  assert (Hfilter : List.filter (λ a, negb (mismo_asiento a asiento))
                      (asientosSeleccionados state ++ [asiento])
                    = asientosSeleccionados state).
  { rewrite List.filter_app. simpl. rewrite Hself. simpl.
    rewrite app_nil_r. apply filter_otros_id, find_mismo_None, Hnone. }
  cbn zeta. simpl. rewrite Hnone. simpl. rewrite Hfind2. simpl. rewrite Hfilter.
  split; [reflexivity|]. split; [reflexivity|]. destruct state; reflexivity.
Qed.

Lemma toggle_asiento_round_trip_witness :
  let state := cinemaReducer initialState (TOGGLE_ASIENTO asiento_A1) in
  cinemaReducer (cinemaReducer state (TOGGLE_ASIENTO asiento_A2)) (TOGGLE_ASIENTO asiento_A2)
  = state.
Proof.
  intros state.
  apply (toggle_asiento_round_trip state asiento_A2).
  - apply cinemaReducer_seleccion_unica, NoDup_nil_2.
  - reflexivity.
Defined.

(** ** Payment on the confirmation page *)

Lemma entradasActualizadas_idem entradaId l :
  entradasActualizadas entradaId (entradasActualizadas entradaId l)
  = entradasActualizadas entradaId l.
Proof.
  unfold entradasActualizadas. rewrite <- list_fmap_compose.
  apply list_fmap_ext. intros _ e _. simpl.
  destruct (Z.eqb (id e) entradaId) eqn:E; simpl; rewrite E; reflexivity.
Qed.

Lemma entradasActualizadas_lookup entradaId l (i : nat) :
  entradasActualizadas entradaId l !! i =
  (λ e, if Z.eqb (id e) entradaId then con_estado pagada e else e) <$> l !! i.
Proof. unfold entradasActualizadas. apply list_lookup_fmap. Qed.

Section PaymentFacts.
Context {W : Type} `{Api W}.

Lemma pagarEntrada_ok tid w w' e :
  api_post_pagar tid w = (w', Ok e) → pagarEntrada tid w = (w', Ok e).
Proof. intros Hp. unfold pagarEntrada, try_catch. rewrite Hp. reflexivity. Qed.

Lemma pagarEntrada_throw tid w w' err :
  api_post_pagar tid w = (w', Throw err) →
  pagarEntrada tid w = (w', Throw (Error "Error al procesar el pago")).
Proof. intros Hp. unfold pagarEntrada, try_catch. rewrite Hp. reflexivity. Qed.

Lemma handlePagar_ok entradaId p w w' e :
  pagarEntrada entradaId w = (w', Ok e) →
  entradasCreadas (c_cinema (handlePagar entradaId p w).2)
  = entradasActualizadas entradaId (entradasCreadas (c_cinema p)).
Proof. intros Hp. unfold handlePagar. rewrite Hp. reflexivity. Qed.

(** A payment run with nothing in between (the closure's list is the list of
    the context): after it succeeds the list keeps its length and order; at
    every position the entry with that id now has [estado = pagada] with
    [id], [sesion], [fila], [numero], [email] and all other members as
    before, and an entry with another id is unchanged. *)
Theorem handlePagar_frame entradaId p w w' entradaPagada :
  pagarEntrada entradaId w = (w', Ok entradaPagada) →
  let antes := entradasCreadas (c_cinema p) in
  let despues := entradasCreadas (c_cinema (handlePagar entradaId p w).2) in
  length despues = length antes ∧
  ∀ (i : nat) e, antes !! i = Some e →
    ∃ e', despues !! i = Some e' ∧
      (id e = entradaId →
         estado e' = pagada ∧ id e' = id e ∧ sesion e' = sesion e ∧
         fila e' = fila e ∧ numero e' = numero e ∧ email e' = email e ∧
         e' = con_estado pagada e) ∧
      (id e ≠ entradaId → e' = e).
Proof.
  intros Hp antes despues. subst antes despues.
  rewrite (handlePagar_ok _ _ _ _ _ Hp).
  split; [unfold entradasActualizadas; apply length_fmap|].
  intros i e Hi. rewrite entradasActualizadas_lookup, Hi. simpl.
  eexists. split; [reflexivity|]. split.
  - intros Hid. apply Z.eqb_eq in Hid. rewrite Hid. simpl. tauto.
  - intros Hid. apply Z.eqb_neq in Hid. rewrite Hid. reflexivity.
Qed.

End PaymentFacts.

Lemma handlePagar_frame_witness :
  pagarEntrada 1 servidor_cobra = (servidor_cobra, Ok (con_estado pagada entrada_1)) ∧
  let despues :=
    entradasCreadas (c_cinema (handlePagar 1 pagina_confirmacion servidor_cobra).2) in
  length despues = 2%nat ∧
  (∃ e', despues !! 0%nat = Some e' ∧ estado e' = pagada ∧ fila e' = "A" ∧ numero e' = 5) ∧
  despues !! 1%nat = Some entrada_2.
Proof.
  assert (Hp : pagarEntrada 1 servidor_cobra
               = (servidor_cobra, Ok (con_estado pagada entrada_1))) by reflexivity.
  split; [exact Hp|].
  destruct (handlePagar_frame 1 pagina_confirmacion _ _ _ Hp) as [Hlen Hframe].
  split; [exact Hlen|]. split.
  - destruct (Hframe 0%nat entrada_1 eq_refl) as (e' & He' & Hid & _).
    exists e'. split; [exact He'|].
    destruct (Hid eq_refl) as (? & _ & _ & ? & ? & _). auto.
  - destruct (Hframe 1%nat entrada_2 eq_refl) as (e' & He' & _ & Hne).
    rewrite He'. f_equal. apply Hne. discriminate.
Defined.

(** ** Payment is idempotent *)

Lemma find_fmap_preserved {A} (p : A → bool) (f : A → A) (l : list A) :
  (∀ x, p (f x) = p x) →
  List.find p (f <$> l) = f <$> List.find p l.
Proof.
  intros Hp. induction l as [|x l IH]; simpl; [reflexivity|].
  rewrite Hp. destruct (p x); [reflexivity | exact IH].
Qed.

Lemma pay_paid st tid t :
  List.find (λ t, Z.eqb (Backend.ticketId t) tid) (Backend.tickets st) = Some t →
  Backend.state t = Backend.Paid →
  Backend.pay st tid = (st, inr t).
Proof. intros Hf Hs. unfold Backend.pay. rewrite Hf, Hs. reflexivity. Qed.

Lemma pay_success st tid st' t :
  Backend.pay st tid = (st', inr t) →
  List.find (λ t, Z.eqb (Backend.ticketId t) tid) (Backend.tickets st') = Some t ∧
  Backend.state t = Backend.Paid.
Proof.
  unfold Backend.pay.
  destruct (List.find _ (Backend.tickets st)) as [t0|] eqn:Hf; [|discriminate].
  destruct (Backend.state t0) eqn:Hs; intros [= <- <-].
  - simpl. rewrite find_fmap_preserved.
    + rewrite Hf. simpl. apply find_some in Hf as [_ ->]. auto.
    + intros x. destruct (Z.eqb (Backend.ticketId x) tid) eqn:E; simpl; rewrite E; reflexivity.
  - auto.
Qed.

Lemma pay_twice st tid st' r :
  Backend.pay st tid = (st', r) → Backend.pay st' tid = (st', r).
Proof.
  destruct r as [f|t]; intros Hp.
  - unfold Backend.pay in *.
    destruct (List.find _ (Backend.tickets st)) as [t0|] eqn:Hf.
    + destruct (Backend.state t0); discriminate.
    + injection Hp as <- <-. rewrite Hf. reflexivity.
  - apply pay_success in Hp as [Hf Hs]. apply pay_paid; assumption.
Qed.

Lemma gset_add_remove (x : Z) (s : gset Z) :
  ({[ x ]} ∪ (({[ x ]} ∪ s) ∖ {[ x ]})) ∖ {[ x ]} = ({[ x ]} ∪ s) ∖ {[ x ]}.
Proof. apply set_eq. intros y. set_unfold. tauto. Qed.

(** C3: on the Ticket Lifecycle Manager, pay on a Ticket that is already
    [Paid] succeeds, returns that Ticket and leaves the store as it was; a
    second pay after a successful one succeeds with the same Ticket, which is
    [Paid]; and on the client, [pagarEntrada] does not throw on a paid ticket,
    the "mark as pagada" update applied twice for one id gives the same
    [entradasCreadas] as applied once, and so does [handlePagar] run twice. *)
Theorem pay_idempotent (st : Backend.Store) (tid : Z) :
  (∀ t, List.find (λ t, Z.eqb (Backend.ticketId t) tid) (Backend.tickets st) = Some t →
        Backend.state t = Backend.Paid →
        Backend.pay st tid = (st, inr t) ∧
        pagarEntrada tid st = (st, Ok (Backend.entrada_of_ticket t))) ∧
  (∀ st' t, Backend.pay st tid = (st', inr t) →
        Backend.state t = Backend.Paid ∧ Backend.pay st' tid = (st', inr t)) ∧
  (∀ l, entradasActualizadas tid (entradasActualizadas tid l)
        = entradasActualizadas tid l) ∧
  (∀ p, let una := handlePagar tid p st in
        handlePagar tid una.2 una.1 = una).
Proof.
  split; [|split; [|split]].
  - intros t Hf Hs. pose proof (pay_paid st tid t Hf Hs) as Hp.
    split; [exact Hp|].
    apply pagarEntrada_ok. simpl. rewrite Hp. reflexivity.
  - intros st' t Hp. split; [apply (pay_success _ _ _ _ Hp)|].
    apply (pay_twice _ _ _ _ Hp).
  - apply entradasActualizadas_idem.
  - intros p una. subst una. unfold handlePagar, pagarEntrada, try_catch. simpl.
    destruct (Backend.pay st tid) as [st' r] eqn:Hp.
    pose proof (pay_twice _ _ _ _ Hp) as Hp2.
    destruct r as [f|t]; simpl; rewrite Hp2; simpl.
    + rewrite gset_add_remove. reflexivity.
    + rewrite gset_add_remove, entradasActualizadas_idem. reflexivity.
Qed.

Lemma pay_idempotent_witness :
  Backend.state ticket_pagado = Backend.Paid ∧
  Backend.pay sala_pagada 1 = (sala_pagada, inr ticket_pagado) ∧
  pagarEntrada 1 sala_pagada = (sala_pagada, Ok (Backend.entrada_of_ticket ticket_pagado)).
Proof.
  split; [reflexivity|].
  apply (proj1 (pay_idempotent sala_pagada 1) ticket_pagado); reflexivity.
Defined.

(** ** How [crearEntrada] and [pagarEntrada] report failures *)

Section FailureReports.
Context {W : Type} `{Api W}.

Lemma crearEntrada_ok payload w w' e :
  api_post_entradas payload w = (w', Ok e) → crearEntrada payload w = (w', Ok e).
Proof. intros Hp. unfold crearEntrada, try_catch. rewrite Hp. reflexivity. Qed.

Lemma crearEntrada_throw payload w w' err :
  api_post_entradas payload w = (w', Throw err) →
  crearEntrada payload w =
  (w', Throw (if bool_decide (error_status err = Some 400)
                 || bool_decide (error_status err = Some 409)
              then asiento_no_disponible else error_reserva)).
Proof.
  intros Hp. unfold crearEntrada, try_catch. rewrite Hp.
  destruct (_ || _); reflexivity.
Qed.

(** C1, as the client has it: a rejected [POST /entradas/] with status 400
    and one with status 409 are reported by [crearEntrada] with one and the
    same error, [Error "Ese asiento ya no está disponible"], whatever the
    payloads and the response bodies; that error differs from the one every
    other failure is reported with. *)
Theorem crearEntrada_400_409_same payload1 payload2 w1 w2 w1' w2' m1 m2 r1 r2 :
  api_post_entradas payload1 w1 = (w1', Throw (AxiosError m1 (Some r1))) →
  api_post_entradas payload2 w2 = (w2', Throw (AxiosError m2 (Some r2))) →
  status r1 = 400 → status r2 = 409 →
  (crearEntrada payload1 w1).2 = Throw asiento_no_disponible ∧
  (crearEntrada payload2 w2).2 = Throw asiento_no_disponible ∧
  asiento_no_disponible ≠ error_reserva.
Proof.
  intros H1 H2 Hs1 Hs2.
  rewrite (crearEntrada_throw _ _ _ _ H1), (crearEntrada_throw _ _ _ _ H2).
  simpl. rewrite Hs1, Hs2. simpl. repeat split. discriminate.
Qed.

(** C5, as the client has it: the underlying failure is not passed on.
    Every failure of [POST /entradas/] whose status is neither 400 nor 409
    (a failure without response included) is reported by [crearEntrada] as
    [Error "Error al crear la reserva"], never as the seat-unavailable
    error; every failure of the payment request, whatever its status, is
    reported by [pagarEntrada] as [Error "Error al procesar el pago"].  The
    world is left as the failed request left it. *)
Theorem other_failures_generic payload tid w w' err :
  (error_status err ≠ Some 400 → error_status err ≠ Some 409 →
   api_post_entradas payload w = (w', Throw err) →
   crearEntrada payload w = (w', Throw error_reserva)) ∧
  (api_post_pagar tid w = (w', Throw err) →
   pagarEntrada tid w = (w', Throw error_pago)) ∧
  error_reserva ≠ asiento_no_disponible ∧
  error_pago ≠ asiento_no_disponible ∧ error_pago ≠ error_reserva.
Proof.
  split; [|split; [|repeat split; discriminate]].
  - intros H400 H409 Hp. rewrite (crearEntrada_throw _ _ _ _ Hp).
    rewrite !bool_decide_eq_false_2 by assumption. reflexivity.
  - apply pagarEntrada_throw.
Qed.

End FailureReports.

(** C1 read literally fails: a payload rejected for validation (400) and one
    rejected for a seat conflict (409) give the same error result. *)
Lemma crearEntrada_conflates_400_409 :
  (api_post_entradas payload_a0 servidor_rechaza).2
    = Throw (AxiosError "Request failed with status code 400"
               (Some {| status := 400; data := JNull |})) ∧
  (api_post_entradas payload_a5 servidor_rechaza).2
    = Throw (AxiosError "Request failed with status code 409"
               (Some {| status := 409; data := JNull |})) ∧
  crearEntrada payload_a0 servidor_rechaza = crearEntrada payload_a5 servidor_rechaza.
Proof. repeat split. Qed.

Lemma crearEntrada_400_409_same_witness :
  (crearEntrada payload_a0 servidor_rechaza).2 = Throw asiento_no_disponible ∧
  (crearEntrada payload_a5 servidor_rechaza).2 = Throw asiento_no_disponible ∧
  asiento_no_disponible ≠ error_reserva.
Proof.
  apply (crearEntrada_400_409_same payload_a0 payload_a5
           servidor_rechaza servidor_rechaza servidor_rechaza servidor_rechaza
           "Request failed with status code 400" "Request failed with status code 409"
           {| status := 400; data := JNull |} {| status := 409; data := JNull |});
    reflexivity.
Defined.

(** C5 read literally fails: a connectivity failure reaches the caller of
    [crearEntrada] and of [pagarEntrada] as a different, generic error, the
    same one a 500 answer would give. *)
Lemma failures_not_surfaced_unmodified :
  (api_post_entradas payload_a5 servidor_caido).2 = Throw (AxiosError "Network Error" None) ∧
  (crearEntrada payload_a5 servidor_caido).2 ≠ Throw (AxiosError "Network Error" None) ∧
  (api_post_pagar 1 servidor_caido).2 = Throw (AxiosError "Network Error" None) ∧
  (pagarEntrada 1 servidor_caido).2 ≠ Throw (AxiosError "Network Error" None).
Proof. repeat split; discriminate. Qed.

Lemma other_failures_generic_witness :
  crearEntrada payload_a5 servidor_caido = (servidor_caido, Throw error_reserva) ∧
  pagarEntrada 1 servidor_caido = (servidor_caido, Throw error_pago) ∧
  pagarEntrada 1 servidor_rechaza = (servidor_rechaza, Throw error_pago) ∧
  pagarEntrada 1 servidor_409 = (servidor_409, Throw error_pago).
Proof.
  destruct (other_failures_generic payload_a5 1 servidor_caido servidor_caido
              (AxiosError "Network Error" None)) as (Hc & Hp & _).
  destruct (other_failures_generic payload_a5 1 servidor_409 servidor_409
              (AxiosError "Request failed with status code 409"
                 (Some {| status := 409; data := JNull |}))) as (_ & Hp409 & _).
  split; [apply Hc; [discriminate | discriminate | reflexivity]|].
  split; [apply Hp; reflexivity|].
  split; [reflexivity | apply Hp409; reflexivity].
Defined.

(** ** The list fetchers never throw *)

Lemma unwrap_spec data : unwrap data = Ok (default [] (lista_de data)).
Proof.
  destruct data as [| |b|n|s|items|props]; try reflexivity.
  - destruct b; reflexivity.
  - unfold unwrap. simpl. destruct (Z.eqb n 0); reflexivity.
  - unfold unwrap. simpl. destruct (String.eqb s ""); reflexivity.
  - unfold unwrap. simpl. destruct (obj_get props "results"); reflexivity.
Qed.

Lemma push_filas_chars s acc : push_filas (chars s) acc = acc.
Proof. revert acc. induction s as [|c s IH]; intros acc; simpl; auto. Qed.

Section Fetchers.
Context {W : Type} `{Api W}.

Lemma getPeliculas_spec params w :
  getPeliculas params w =
  ((api_get PeliculasList (default [] params) w).1,
   Ok match (api_get PeliculasList (default [] params) w).2 with
      | Ok data => default [] (lista_de data)
      | Throw _ => []
      end).
Proof.
  unfold getPeliculas, try_catch, async_bind, lift_result, async_ret.
  destruct (api_get _ _ w) as [w' [data|e]]; simpl; [|reflexivity].
  rewrite unwrap_spec. reflexivity.
Qed.

Lemma getSesiones_spec params w :
  getSesiones params w =
  ((api_get SesionesList (mapped params) w).1,
   Ok match (api_get SesionesList (mapped params) w).2 with
      | Ok data => default [] (lista_de data)
      | Throw _ => []
      end).
Proof.
  unfold getSesiones, try_catch, async_bind, lift_result, async_ret.
  destruct (api_get _ _ w) as [w' [data|e]]; simpl; [|reflexivity].
  rewrite unwrap_spec. reflexivity.
Qed.

Lemma getAsientos_spec sesionId includeEstado w :
  getAsientos sesionId includeEstado w =
  ((api_get (SesionAsientos sesionId) (params_asientos includeEstado) w).1,
   Ok match (api_get (SesionAsientos sesionId) (params_asientos includeEstado) w).2 with
      | Ok data => push_filas (default [] (layout_de data)) []
      | Throw _ => []
      end).
Proof.
  unfold getAsientos, try_catch, async_bind, lift_result, async_ret, params_asientos.
  destruct (api_get _ _ w) as [w' [data|e]]; simpl; [|reflexivity].
  destruct data as [| |b|n|s|items|props]; try reflexivity.
  simpl. destruct (obj_get props "layout") as [| |b|n|s|filas|ps]; try reflexivity.
  - destruct b; reflexivity.
  - unfold js_or. simpl. destruct (Z.eqb n 0); reflexivity.
  - unfold js_or. simpl. destruct (String.eqb s "") eqn:E; simpl.
    + reflexivity.
    + rewrite push_filas_chars. reflexivity.
Qed.

(** C10: [unwrap] always returns a list, the empty one for an input that is
    neither an array nor an object with an array [results]; [getPeliculas],
    [getSesiones] and [getAsientos] return a list for every answer of the
    server, and the empty list when the request fails or the payload is not
    list-shaped. *)
Theorem list_fetchers_total :
  (∀ data, ∃ l, unwrap data = Ok l) ∧
  (∀ data, lista_de data = None → unwrap data = Ok []) ∧
  (∀ params w, ∃ w' l, getPeliculas params w = (w', Ok l)) ∧
  (∀ params w, ∃ w' l, getSesiones params w = (w', Ok l)) ∧
  (∀ sesionId includeEstado w, ∃ w' l,
      getAsientos sesionId includeEstado w = (w', Ok l)) ∧
  (∀ params w w' r,
      api_get PeliculasList (default [] params) w = (w', r) →
      (∀ data, r = Ok data → lista_de data = None) →
      getPeliculas params w = (w', Ok [])) ∧
  (∀ params w w' r,
      api_get SesionesList (mapped params) w = (w', r) →
      (∀ data, r = Ok data → lista_de data = None) →
      getSesiones params w = (w', Ok [])) ∧
  (∀ sesionId includeEstado w w' r,
      api_get (SesionAsientos sesionId) (params_asientos includeEstado) w = (w', r) →
      (∀ data, r = Ok data → layout_de data = None) →
      getAsientos sesionId includeEstado w = (w', Ok [])).
Proof.
  repeat split.
  - intros data. rewrite unwrap_spec. eauto.
  - intros data Hn. rewrite unwrap_spec, Hn. reflexivity.
  - intros params w. rewrite getPeliculas_spec. eauto.
  - intros params w. rewrite getSesiones_spec. eauto.
  - intros sesionId includeEstado w. rewrite getAsientos_spec. eauto.
  - intros params w w' r Hget Hr. rewrite getPeliculas_spec, Hget. simpl.
    destruct r as [data|e]; [|reflexivity]. rewrite (Hr data eq_refl). reflexivity.
  - intros params w w' r Hget Hr. rewrite getSesiones_spec, Hget. simpl.
    destruct r as [data|e]; [|reflexivity]. rewrite (Hr data eq_refl). reflexivity.
  - intros sesionId includeEstado w w' r Hget Hr. rewrite getAsientos_spec, Hget. simpl.
    destruct r as [data|e]; [|reflexivity]. rewrite (Hr data eq_refl). reflexivity.
Qed.

End Fetchers.

Lemma list_fetchers_total_witness :
  unwrap (JStr "abc") = Ok [] ∧
  getPeliculas None servidor_raro = (servidor_raro, Ok []) ∧
  getSesiones (Some [("pelicula_id", JNum 3)]) servidor_raro = (servidor_raro, Ok []) ∧
  getAsientos 1 true servidor_raro = (servidor_raro, Ok []) ∧
  getAsientos 1 true servidor_caido = (servidor_caido, Ok []).
Proof.
  destruct (@list_fetchers_total Guion.World _) as (_ & Hu & _ & _ & _ & Hp & Hs & Ha).
  split; [apply Hu; reflexivity|].
  split; [eapply Hp; [reflexivity | intros data [= <-]; reflexivity]|].
  split; [eapply Hs; [reflexivity | intros data [= <-]; reflexivity]|].
  split; [eapply Ha; [reflexivity | intros data [= <-]; reflexivity]|].
  eapply Ha; [reflexivity | intros data [=]].
Defined.

(** ** The seat map read: one seat per coordinate *)

Section Grid.
Local Open Scope nat_scope.

Lemma push_filas_arrays (rows : list (list JsVal)) (acc : list JsVal) :
  push_filas (JArr <$> rows) acc = acc ++ concat rows.
Proof.
  revert acc. induction rows as [|r rows IH]; intros acc; simpl.
  - rewrite app_nil_r. reflexivity.
  - rewrite IH, app_assoc. reflexivity.
Qed.

Lemma layout_de_js_of_layout (grid : list (list Asiento)) :
  layout_de (js_of_layout grid)
  = Some (JArr <$> ((λ fila : list Asiento, js_of_asiento <$> fila) <$> grid)).
Proof. simpl. rewrite <- list_fmap_compose. reflexivity. Qed.

Lemma concat_fmap_fmap {A B} (f : A → B) (ll : list (list A)) :
  concat ((λ l : list A, f <$> l) <$> ll) = f <$> concat ll.
Proof.
  induction ll as [|l ll IH]; [reflexivity|].
  rewrite fmap_cons. cbn [concat]. rewrite IH, fmap_app. reflexivity.
Qed.

Lemma rejilla_length {A} R C (grid : list (list A)) :
  rejilla R C grid → length (concat grid) = R * C.
Proof.
  intros [<- Hrows]. induction Hrows as [|fila grid Hf _ IH]; simpl; [reflexivity|].
  rewrite length_app, IH, Hf. reflexivity.
Qed.

Lemma rejilla_lookup {A} R C (grid : list (list A)) i j fila a :
  rejilla R C grid →
  grid !! i = Some fila → fila !! j = Some a →
  concat grid !! (i * C + j) = Some a.
Proof.
  intros [_ Hrows]. revert i.
  induction Hrows as [|f grid Hf _ IH]; intros i Hi Hj; [destruct i; discriminate|].
  destruct i as [|i]; simpl in *.
  - injection Hi as ->. apply lookup_app_l_Some, Hj.
  - rewrite lookup_app_r by lia.
    replace (C + i * C + j - length f) with (i * C + j) by lia.
    apply IH; assumption.
Qed.

Lemma rejilla_cell {A} R C (grid : list (list A)) n :
  rejilla R C grid → n < R * C →
  ∃ fila a, grid !! (n / C) = Some fila ∧ fila !! (n mod C) = Some a ∧
            concat grid !! n = Some a.
Proof.
  intros Hg Hn.
  assert (HC : C ≠ 0) by (intros ->; lia).
  assert (Hi : n / C < R) by (apply Nat.Div0.div_lt_upper_bound; lia).
  assert (Hj : n mod C < C) by (apply Nat.mod_upper_bound, HC).
  destruct Hg as [Hlen Hrows].
  destruct (lookup_lt_is_Some_2 grid (n / C)) as [fila Hfila]; [lia|].
  assert (Hf : length fila = C).
  { rewrite Forall_forall in Hrows. apply Hrows.
    apply list_elem_of_lookup. eauto. }
  destruct (lookup_lt_is_Some_2 fila (n mod C)) as [a Ha]; [lia|].
  exists fila, a. split; [exact Hfila|]. split; [exact Ha|].
  rewrite (Nat.div_mod_eq n C) at 1.
  rewrite (Nat.mul_comm C). eapply rejilla_lookup; eauto. split; auto.
Qed.

Lemma rejilla_coordenadas_NoDup label R C grid :
  rejilla R C grid →
  coordenadas_propias label grid →
  (∀ i i', i < R → i' < R → label i = label i' → i = i') →
  NoDup (coordenada <$> concat grid).
Proof.
  intros Hg Hc Hinj. apply NoDup_alt. intros n m c Hn Hm.
  pose proof (rejilla_length R C grid Hg) as Hlen.
  assert (Hn' : n < R * C).
  { apply lookup_lt_Some in Hn. rewrite length_fmap in Hn. lia. }
  assert (Hm' : m < R * C).
  { apply lookup_lt_Some in Hm. rewrite length_fmap in Hm. lia. }
  destruct (rejilla_cell R C grid n Hg Hn') as (fn & an & Hfn & Han & Hcn).
  destruct (rejilla_cell R C grid m Hg Hm') as (fm & am & Hfm & Ham & Hcm).
  rewrite list_lookup_fmap, Hcn in Hn. rewrite list_lookup_fmap, Hcm in Hm.
  simpl in Hn, Hm. injection Hn as Hn. injection Hm as Hm.
  rewrite (Hc _ _ _ _ Hfn Han) in Hn. rewrite (Hc _ _ _ _ Hfm Ham) in Hm.
  subst c. injection Hm as Hlab Hcol.
  assert (HC : C ≠ 0) by (intros ->; lia).
  assert (Hdiv : n / C = m / C).
  { symmetry. apply Hinj; [apply Nat.Div0.div_lt_upper_bound; lia ..| exact Hlab]. }
  rewrite (Nat.div_mod_eq n C), (Nat.div_mod_eq m C). lia.
Qed.

Lemma rejilla_coordenadas_elem label R C grid i j :
  rejilla R C grid →
  coordenadas_propias label grid →
  i < R → j < C →
  (label i, Z.of_nat (S j)) ∈ coordenada <$> concat grid.
Proof.
  intros Hg Hc Hi Hj. pose proof Hg as [Hlen Hrows].
  destruct (lookup_lt_is_Some_2 grid i) as [fila Hfila]; [lia|].
  assert (Hf : length fila = C).
  { rewrite Forall_forall in Hrows. apply Hrows.
    apply list_elem_of_lookup. eauto. }
  destruct (lookup_lt_is_Some_2 fila j) as [a Ha]; [lia|].
  rewrite <- (Hc _ _ _ _ Hfila Ha).
  apply list_elem_of_fmap. exists a. split; [reflexivity|].
  apply list_elem_of_lookup. exists (i * C + j).
  eapply rejilla_lookup; eauto.
Qed.

End Grid.

Section SeatMapRead.
Context {W : Type} `{Api W}.

Lemma getAsientos_layout sesionId includeEstado w w' (grid : list (list Asiento)) :
  api_get (SesionAsientos sesionId) (params_asientos includeEstado) w
    = (w', Ok (js_of_layout grid)) →
  getAsientos sesionId includeEstado w = (w', Ok (js_of_asiento <$> concat grid)).
Proof.
  intros Hget. rewrite getAsientos_spec, Hget.
  cbn [fst snd]. rewrite layout_de_js_of_layout.
  change (default [] (Some ?x)) with x.
  rewrite push_filas_arrays, concat_fmap_fmap. reflexivity.
Qed.

(** C6: when the layout answered for a session is a list of [R] rows of [C]
    seats each, [getAsientos] yields exactly [R * C] seats, the cell of row
    [i] and column [j] at position [i * C + j]; and when each cell carries
    its own coordinate (row label of [i], number [j + 1], labels of
    different rows being different), every coordinate of the grid appears
    in the result, and none appears twice. *)
Theorem getAsientos_one_per_coordinate
    sesionId includeEstado w w' (grid : list (list Asiento)) (R C : nat) :
  api_get (SesionAsientos sesionId) (params_asientos includeEstado) w
    = (w', Ok (js_of_layout grid)) →
  rejilla R C grid →
  ∃ asientos : list Asiento,
    getAsientos sesionId includeEstado w = (w', Ok (js_of_asiento <$> asientos)) ∧
    length (js_of_asiento <$> asientos) = (R * C)%nat ∧
    (∀ i j fila a, grid !! i = Some fila → fila !! j = Some a →
                   asientos !! (i * C + j)%nat = Some a) ∧
    (∀ label : nat → string,
        coordenadas_propias label grid →
        (∀ i i', (i < R)%nat → (i' < R)%nat → label i = label i' → i = i') →
        NoDup (coordenada <$> asientos) ∧
        ∀ i j, (i < R)%nat → (j < C)%nat →
               (label i, Z.of_nat (S j)) ∈ coordenada <$> asientos).
Proof.
  intros Hget Hg. exists (concat grid).
  split; [apply getAsientos_layout, Hget|].
  split; [rewrite length_fmap; apply rejilla_length, Hg|].
  split; [intros i j fila a; apply (rejilla_lookup R C), Hg|].
  intros label Hc Hinj. split.
  - eapply rejilla_coordenadas_NoDup; eauto.
  - intros i j Hi Hj. eapply rejilla_coordenadas_elem; eauto.
Qed.

End SeatMapRead.

Lemma getAsientos_one_per_coordinate_witness :
  rejilla 2 2 rejilla_2x2 ∧
  ∃ asientos : list Asiento,
    getAsientos 7 true servidor_2x2 = (servidor_2x2, Ok (js_of_asiento <$> asientos)) ∧
    length (js_of_asiento <$> asientos) = 4%nat.
Proof.
  assert (Hg : rejilla 2 2 rejilla_2x2) by (split; [reflexivity | repeat constructor]).
  split; [exact Hg|].
  assert (Hapi : api_get (SesionAsientos 7) (params_asientos true) servidor_2x2
                 = (servidor_2x2, Ok (js_of_layout rejilla_2x2))) by reflexivity.
  destruct (getAsientos_one_per_coordinate 7 true servidor_2x2 servidor_2x2
              rejilla_2x2 2 2 Hapi Hg) as (asientos & Hget & Hlen & _).
  exists asientos. split; [exact Hget | exact Hlen].
Defined.

(** ** Facts about the Ticket Lifecycle Manager *)

Module BackendFacts.
Import Backend.

Lemma reserve_success st sid r c mail st' t :
  reserve st sid r c mail = (st', inr t) →
  ∃ sh, find_showing st sid = Some sh ∧
        1 ≤ c ≤ Z.of_nat (columnCount sh) ∧
        valid_row (uppercase r) (rowCount sh) = true ∧
        find_ticket (tickets st) sid (uppercase r) c = None ∧
        t = {| ticketId := next_id (tickets st); showing := sid;
               row := uppercase r; column := c; contact := mail;
               state := Reserved |} ∧
        st' = with_tickets (tickets st ++ [t]) st.
Proof.
  unfold reserve. destruct (find_showing st sid) as [sh|]; [|discriminate].
  destruct (String.eqb mail ""); [discriminate|].
  destruct (1 <=? c) eqn:H1; [|discriminate].
  destruct (c <=? Z.of_nat (columnCount sh)) eqn:H2; [|discriminate].
  simpl. destruct (valid_row _ _) eqn:Hv; [|discriminate].
  simpl. destruct (find_ticket _ _ _ _) eqn:Hf; [discriminate|].
  intros [= <- <-]. exists sh. repeat split; auto; lia.
Qed.

Lemma reserve_failure st sid r c mail st' f :
  reserve st sid r c mail = (st', inl f) → st' = st.
Proof.
  unfold reserve. destruct (find_showing st sid) as [sh|]; [|congruence].
  destruct (String.eqb mail ""); [congruence|].
  destruct (negb _); [congruence|].
  destruct (negb _); [congruence|].
  destruct (find_ticket _ _ _ _); congruence.
Qed.

Lemma valid_row_pos r n : valid_row r n = true → (0 < n)%nat.
Proof.
  unfold valid_row. destruct r as [|c [|]]; try discriminate.
  cbv zeta. rewrite !andb_true_iff, !Nat.leb_le, Nat.ltb_lt. lia.
Qed.

Lemma find_ticket_new ts sid r c t :
  find_ticket ts sid r c = None →
  en_asiento sid r c t = true →
  find_ticket (ts ++ [t]) sid r c = Some t.
Proof.
  unfold find_ticket. intros Hn Ht.
  induction ts as [|x ts IH]; simpl in *; [rewrite Ht; reflexivity|].
  destruct (en_asiento sid r c x); [discriminate | auto].
Qed.

Lemma row_label_inj i i' :
  (i < 26)%nat → (i' < 26)%nat → row_label i = row_label i' → i = i'.
Proof.
  unfold row_label. intros Hi Hi' [= Heq].
  apply (f_equal nat_of_ascii) in Heq.
  rewrite !nat_ascii_embedding in Heq by lia. lia.
Qed.

(** The grid of a showing, cell by cell. *)
Lemma seat_map_lookup st sid sh grid (i j : nat) :
  find_showing st sid = Some sh →
  seat_map st sid = inr grid →
  (i < rowCount sh)%nat → (j < columnCount sh)%nat →
  ∃ fila, grid !! i = Some fila ∧
          fila !! j = Some {| cell_row := row_label i;
                              cell_column := Z.of_nat (S j);
                              cell_status := status_of (tickets st) sid (row_label i)
                                                       (Z.of_nat (S j)) |}.
Proof.
  unfold seat_map. intros -> [= <-] Hi Hj.
  eexists. split.
  - rewrite list_lookup_fmap, lookup_seq_lt by exact Hi. reflexivity.
  - rewrite list_lookup_fmap, lookup_seq_lt by exact Hj. reflexivity.
Qed.

Lemma seat_map_rejilla st sid sh grid :
  find_showing st sid = Some sh →
  seat_map st sid = inr grid →
  rejilla (rowCount sh) (columnCount sh) (asientos_of_grid grid).
Proof.
  unfold seat_map, asientos_of_grid. intros -> [= <-]. split.
  - rewrite !length_fmap, length_seq. reflexivity.
  - rewrite Forall_fmap, Forall_fmap. apply Forall_forall. intros i _. simpl.
    rewrite !length_fmap, length_seq. reflexivity.
Qed.

Lemma seat_map_coordenadas st sid grid :
  seat_map st sid = inr grid →
  coordenadas_propias row_label (asientos_of_grid grid).
Proof.
  unfold seat_map, asientos_of_grid.
  destruct (find_showing st sid) as [sh|]; [|discriminate].
  intros [= <-] i j fila a Hi Hj.
  rewrite !list_lookup_fmap in Hi.
  destruct (seq 0 (rowCount sh) !! i) as [i'|] eqn:Hseq; [|discriminate].
  apply lookup_seq in Hseq as [-> _]. simpl in Hi. injection Hi as <-.
  rewrite !list_lookup_fmap in Hj.
  destruct (seq 1 (columnCount sh) !! j) as [j'|] eqn:Hseq; [|discriminate].
  apply lookup_seq in Hseq as [-> _]. simpl in Hj. injection Hj as <-.
  reflexivity.
Qed.

(** Every seat of the projection reports the status the tickets give to
    its own coordinate. *)
Lemma seat_map_status st sid grid a :
  seat_map st sid = inr grid →
  a ∈ concat (asientos_of_grid grid) →
  a = asiento_of_cell {| cell_row := a_fila a; cell_column := a_numero a;
                         cell_status := status_of (tickets st) sid (a_fila a)
                                                  (a_numero a) |}.
Proof.
  unfold seat_map, asientos_of_grid.
  destruct (find_showing st sid) as [sh|]; [|discriminate].
  intros [= <-] Hin.
  apply list_elem_of_In, in_concat in Hin as (fila & Hfila & Ha).
  apply list_elem_of_In in Hfila. apply list_elem_of_In in Ha.
  apply list_elem_of_fmap in Hfila as (cells & -> & Hcells).
  apply list_elem_of_fmap in Hcells as (i & -> & _).
  apply list_elem_of_fmap in Ha as (cell & -> & Hcell).
  apply list_elem_of_fmap in Hcell as (j & -> & _).
  reflexivity.
Qed.

Lemma api_get_asientos st sid grid :
  seat_map st sid = inr grid →
  api_get (SesionAsientos sid) (params_asientos true) st
  = (st, Ok (js_of_layout (asientos_of_grid grid))).
Proof. intros Hm. simpl. rewrite Hm. reflexivity. Qed.

End BackendFacts.

(** ** The scenario of the specification on a 2 x 2 showing *)

Example escenario_libre :
  estados (Backend.seat_map sala_2x2 1)
  = Some [[Backend.free; Backend.free]; [Backend.free; Backend.free]].
Proof. reflexivity. Qed.

Example escenario_reserva_pago_conflicto :
  let '(st1, r1) := Backend.reserve sala_2x2 1 "A" 1 "x@y.com" in
  let '(st2, r2) := Backend.pay st1 1 in
  let '(st3, r3) := Backend.reserve st2 1 "a" 1 "z@y.com" in
  estados (Backend.seat_map st1 1)
    = Some [[Backend.reserved; Backend.free]; [Backend.free; Backend.free]] ∧
  estados (Backend.seat_map st2 1)
    = Some [[Backend.paid; Backend.free]; [Backend.free; Backend.free]] ∧
  r3 = inl Backend.SeatConflict ∧ st3 = st2.
Proof. vm_compute. repeat split. Qed.

Example escenario_columna_fuera_de_rango :
  Backend.reserve sala_2x2 1 "A" 0 "x@y.com" = (sala_2x2, inl Backend.ValidationError) ∧
  Backend.reserve sala_2x2 1 "A" 3 "x@y.com" = (sala_2x2, inl Backend.ValidationError) ∧
  Backend.reserve sala_2x2 1 "C" 1 "x@y.com" = (sala_2x2, inl Backend.ValidationError).
Proof. repeat split. Qed.

Example escenario_listados :
  getPeliculas None sala_2x2 = (sala_2x2, Ok []) ∧
  getSesiones (Some [("pelicula_id", JNum 3)]) sala_2x2 = (sala_2x2, Ok []).
Proof. split; reflexivity. Qed.

Example mapped_pelicula_id :
  mapped (Some [("pelicula_id", JNum 3); ("sala", JStr "1")])
  = [("sala", JStr "1"); ("pelicula", JNum 3)].
Proof. reflexivity. Qed.

Example trim_email : trim "  x@y.com " = "x@y.com" ∧ trim "   " = "".
Proof. split; reflexivity. Qed.

(** ** Row labels are written in upper case and read back from the seat map *)

Section ReserveFacts.
Context {W : Type} `{Api W}.

Lemma crearEntrada_ok_inv payload w w' e :
  crearEntrada payload w = (w', Ok e) → api_post_entradas payload w = (w', Ok e).
Proof.
  unfold crearEntrada, try_catch.
  destruct (api_post_entradas payload w) as [w1 [e1|err]]; [auto|].
  destruct (_ || _); discriminate.
Qed.

End ReserveFacts.

Module RoundTrip.
Import Backend BackendFacts.

Lemma post_entradas_ok payload st st' e :
  api_post_entradas payload st = (st', Ok e) →
  ∃ t, reserve st (p_sesion payload) (p_fila payload) (p_numero payload)
               (p_email payload) = (st', inr t) ∧
       e = entrada_of_ticket t.
Proof.
  simpl. destruct (reserve _ _ _ _ _) as [st1 [f|t]]; [discriminate|].
  intros [= <- <-]. eauto.
Qed.

Lemma getAsientos_store sid includeEstado (st : Store) :
  (getAsientos sid includeEstado st).1 = st.
Proof.
  rewrite getAsientos_spec. simpl.
  destruct (seat_map st sid); [reflexivity|].
  destruct (wants_estado _); reflexivity.
Qed.

Lemma seat_map_some st sid sh :
  find_showing st sid = Some sh → ∃ grid, seat_map st sid = inr grid.
Proof. intros Hf. unfold seat_map. rewrite Hf. eauto. Qed.

(** C7: after [crearEntrada] of (sesion 1, fila "a", numero 5,
    email "x@y.com") succeeds against the Ticket Lifecycle Manager, the
    returned entry has fila "A" (numero 5, estado reservada), and the seat
    map of showing 1 read through [getAsientos] contains the seat (A, 5)
    with estado reservada, every seat it lists at that coordinate being
    reserved. *)
Theorem row_label_round_trip (st st' : Store) (e : Entrada) :
  crearEntrada payload_a5 st = (st', Ok e) →
  fila e = "A" ∧ numero e = 5 ∧ sesion e = 1 ∧ estado e = reservada ∧
  ∃ asientos : list Asiento,
    getAsientos 1 true st' = (st', Ok (js_of_asiento <$> asientos)) ∧
    {| a_fila := "A"; a_numero := 5; a_estado := reservada_a |} ∈ asientos ∧
    ∀ a, a ∈ asientos → coordenada a = ("A", 5) → a_estado a = reservada_a.
Proof.
  intros Hc. apply crearEntrada_ok_inv, post_entradas_ok in Hc as (t & Hr & ->).
  apply reserve_success in Hr as (sh & Hsh & Hcol & Hrow & Hfree & Ht & Hst).
  change (uppercase (p_fila payload_a5)) with "A" in *.
  change (p_numero payload_a5) with 5 in *.
  change (p_sesion payload_a5) with 1 in *.
  assert (Hstate : status_of (tickets st') 1 "A" 5 = reserved).
  { subst st'. unfold status_of. simpl.
    rewrite (find_ticket_new _ _ _ _ t Hfree) by (subst t; reflexivity).
    subst t. reflexivity. }
  assert (Hsh' : find_showing st' 1 = Some sh) by (subst st'; exact Hsh).
  destruct (seat_map_some _ _ _ Hsh') as [grid Hgrid].
  subst t. simpl. repeat (split; [reflexivity|]).
  exists (concat (asientos_of_grid grid)).
  split; [apply getAsientos_layout, api_get_asientos, Hgrid|]. split.
  - destruct (seat_map_lookup st' 1 sh grid 0 4 Hsh' Hgrid) as (fila0 & Hf0 & Hcell).
    { eapply valid_row_pos, Hrow. }
    { lia. }
    apply list_elem_of_lookup. exists (0 * columnCount sh + 4)%nat.
    eapply rejilla_lookup.
    + eapply seat_map_rejilla; eauto.
    + unfold asientos_of_grid. rewrite list_lookup_fmap, Hf0. reflexivity.
    + rewrite list_lookup_fmap, Hcell. simpl.
      change (row_label 0) with "A". change (Z.of_nat 5) with 5.
      rewrite Hstate. reflexivity.
  - intros a Ha [= Hfa Hna].
    rewrite (seat_map_status _ _ _ a Hgrid Ha). rewrite Hfa, Hna, Hstate. reflexivity.
Qed.

End RoundTrip.

Lemma row_label_round_trip_witness :
  ∃ st' e, crearEntrada payload_a5 sala_5x8 = (st', Ok e) ∧ fila e = "A" ∧
    ∃ asientos : list Asiento,
      getAsientos 1 true st' = (st', Ok (js_of_asiento <$> asientos)) ∧
      {| a_fila := "A"; a_numero := 5; a_estado := reservada_a |} ∈ asientos.
Proof.
  eexists _, _. split; [reflexivity|].
  edestruct (RoundTrip.row_label_round_trip sala_5x8) as (Hf & _ & _ & _ & l & Hget & Hin & _);
    [reflexivity|].
  split; [exact Hf|]. exists l. split; [exact Hget | exact Hin].
Defined.

(** ** A batch reservation that fails half way *)

Section BatchFacts.
Context {W : Type} `{Api W}.

(** What [handleConfirmarSeleccion] does when an iteration of its loop
    throws: the context is not touched, no navigation happens, and the only
    further request is the reload of the seat map. *)
Lemma handleConfirmarSeleccion_fail sesionId p w w1 err :
  asientosSeleccionados (cinema p) ≠ [] →
  trim (email_campo p) ≠ "" →
  crear_entradas sesionId (trim (email_campo p))
    (asientosSeleccionados (cinema p)) [] false w = (w1, inl err) →
  (handleConfirmarSeleccion sesionId p w).1 = (getAsientos sesionId true w1).1 ∧
  cinema (handleConfirmarSeleccion sesionId p w).2 = cinema p ∧
  ruta (handleConfirmarSeleccion sesionId p w).2 = ruta p ∧
  creandoEntradas (handleConfirmarSeleccion sesionId p w).2 = false.
Proof.
  intros Hsel Hmail Hloop. unfold handleConfirmarSeleccion.
  destruct (asientosSeleccionados (cinema p)) as [|a sel] eqn:Es; [congruence|].
  cbn [length Nat.eqb].
  destruct (String.eqb (trim (email_campo p)) "") eqn:Em.
  { apply String.eqb_eq in Em. congruence. }
  rewrite Hloop. unfold cargarAsientos.
  destruct (getAsientos sesionId true w1) as [w2 [data|e]]; simpl; auto.
Qed.

(** The message set by the failing iteration does not survive the reload:
    [cargarAsientos] starts with [setError(null)], and [getAsientos] never
    throws, so the page ends with no error. *)
Lemma handleConfirmarSeleccion_fail_error sesionId p w w1 err :
  asientosSeleccionados (cinema p) ≠ [] →
  trim (email_campo p) ≠ "" →
  crear_entradas sesionId (trim (email_campo p))
    (asientosSeleccionados (cinema p)) [] false w = (w1, inl err) →
  error (handleConfirmarSeleccion sesionId p w).2 = None.
Proof.
  intros Hsel Hmail Hloop. unfold handleConfirmarSeleccion.
  destruct (asientosSeleccionados (cinema p)) as [|a sel] eqn:Es; [congruence|].
  cbn [length Nat.eqb].
  destruct (String.eqb (trim (email_campo p)) "") eqn:Em.
  { apply String.eqb_eq in Em. congruence. }
  rewrite Hloop. unfold cargarAsientos. rewrite getAsientos_spec. reflexivity.
Qed.

End BatchFacts.

Module Batch.
Import Backend BackendFacts.

Lemma with_tickets_id (st : Store) : with_tickets (tickets st) st = st.
Proof. destruct st; reflexivity. Qed.

(** [crearEntrada] against the manager. *)
Lemma crearEntrada_reserve payload (st : Store) :
  crearEntrada payload st =
  match reserve st (p_sesion payload) (p_fila payload) (p_numero payload)
                (p_email payload) with
  | (st', inr t) => (st', Ok (entrada_of_ticket t))
  | (st', inl f) =>
      (st', Throw (match f with
                   | NotFound => error_reserva
                   | _ => asiento_no_disponible
                   end))
  end.
Proof.
  unfold crearEntrada, try_catch. cbn [api_post_entradas api].
  destruct (reserve _ _ _ _ _) as [st' [f|t]]; [destruct f|]; reflexivity.
Qed.

(** The loop against the manager, step by step: when it stops on an error,
    the seats before the failing one were reserved one after the other, each
    reservation adding its ticket at the end of the store, and the failing
    seat is the next one of the selection, rejected on the store so reached. *)
Lemma crear_entradas_trace sid mail seats acc hs (st st' : Store) err :
  crear_entradas sid mail seats acc hs st = (st', inl err) →
  ∃ nuevos a,
    st' = with_tickets (tickets st ++ nuevos) st ∧
    seats !! length nuevos = Some a ∧
    crearEntrada (payload_de sid mail a) st' = (st', Throw err) ∧
    Forall2 (ticket_de sid) nuevos (take (length nuevos) seats) ∧
    ∀ (k : nat) t, nuevos !! k = Some t →
      ∃ a_k, seats !! k = Some a_k ∧
        crearEntrada (payload_de sid mail a_k)
          (with_tickets (tickets st ++ take k nuevos) st)
        = (with_tickets (tickets st ++ take (S k) nuevos) st,
           Ok (entrada_of_ticket t)).
Proof.
  revert acc hs st. induction seats as [|a rest IH]; intros acc hs st;
    cbn [crear_entradas]; [discriminate|].
  change {| p_sesion := sid; p_fila := a_fila a; p_numero := a_numero a;
            p_email := mail |} with (payload_de sid mail a).
  destruct (crearEntrada (payload_de sid mail a) st) as [st1 [e|e']] eqn:Hc.
  - intros Hloop.
    assert (Hres : ∃ t, reserve st sid (a_fila a) (a_numero a) mail = (st1, inr t)
                        ∧ e = entrada_of_ticket t).
    { rewrite crearEntrada_reserve in Hc. cbn [payload_de p_sesion p_fila p_numero p_email] in Hc.
      destruct (reserve st sid (a_fila a) (a_numero a) mail) as [st2 [f|t]];
        [discriminate|]. injection Hc as <- <-. eauto. }
    destruct Hres as (t & Hres & ->).
    apply reserve_success in Hres as (sh & _ & _ & _ & _ & Ht & Hst1).
    apply IH in Hloop as (nuevos & a' & Hst' & Hlook & Hfail & Hall & Htrace).
    assert (Hpre : ∀ l, with_tickets (tickets st1 ++ l) st1
                        = with_tickets (tickets st ++ t :: l) st).
    { intros l. rewrite Hst1. cbn [tickets with_tickets showings peliculas_json sesiones_json].
      rewrite <- app_assoc. reflexivity. }
    exists (t :: nuevos), a'. split; [rewrite Hst', Hpre; reflexivity|].
    split; [exact Hlook|]. split; [exact Hfail|]. split.
    + cbn [length take]. constructor; [rewrite Ht; repeat split | exact Hall].
    + intros [|k] t0 Hk.
      * cbn in Hk. injection Hk as <-. exists a. split; [reflexivity|].
        cbn [take]. rewrite app_nil_r, with_tickets_id, Hc, Hst1. reflexivity.
      * cbn in Hk. destruct (Htrace k t0 Hk) as (a_k & Hak & Hstep).
        exists a_k. split; [exact Hak|].
        rewrite !Hpre in Hstep. exact Hstep.
  - intros [= <- <-].
    assert (Hst1 : st1 = st).
    { rewrite crearEntrada_reserve in Hc.
      destruct (reserve _ _ _ _ _) as [st2 [f|t]] eqn:Hr; [|discriminate].
      apply reserve_failure in Hr. injection Hc as <- _. exact Hr. }
    subst st1. exists [], a. rewrite app_nil_r, with_tickets_id.
    split; [reflexivity|]. split; [reflexivity|]. split; [exact Hc|].
    split; [constructor|]. intros k t Hk. destruct k; discriminate.
Qed.

(** C2, as the code has it: when an iteration of the batch fails, the
    context keeps its [entradasCreadas] and its selection (no ticket of the
    batch is recorded on the client) and no navigation happens; the tickets
    that the earlier iterations created are not rolled back.  The failing
    seat is the first one of the selection that [crearEntrada] rejects; every
    seat before it was reserved in turn, and the store ends with its former
    tickets followed by exactly those [Reserved] tickets, one per preceding
    seat, in selection order. *)
Theorem batch_failure_keeps_earlier_tickets sesionId p (st st1 : Store) err :
  asientosSeleccionados (cinema p) ≠ [] →
  trim (email_campo p) ≠ "" →
  crear_entradas sesionId (trim (email_campo p))
    (asientosSeleccionados (cinema p)) [] false st = (st1, inl err) →
  let fin := handleConfirmarSeleccion sesionId p st in
  let sel := asientosSeleccionados (cinema p) in
  let correo := trim (email_campo p) in
  entradasCreadas (cinema fin.2) = entradasCreadas (cinema p) ∧
  asientosSeleccionados (cinema fin.2) = sel ∧
  ruta fin.2 = ruta p ∧
  fin.1 = st1 ∧
  ∃ nuevos a,
    tickets fin.1 = tickets st ++ nuevos ∧
    (length nuevos < length sel)%nat ∧
    sel !! length nuevos = Some a ∧
    crearEntrada (payload_de sesionId correo a) fin.1 = (fin.1, Throw err) ∧
    Forall2 (ticket_de sesionId) nuevos (take (length nuevos) sel) ∧
    ∀ (k : nat) t, nuevos !! k = Some t →
      ∃ a_k, sel !! k = Some a_k ∧
        crearEntrada (payload_de sesionId correo a_k)
          (with_tickets (tickets st ++ take k nuevos) st)
        = (with_tickets (tickets st ++ take (S k) nuevos) st,
           Ok (entrada_of_ticket t)).
Proof.
  intros Hsel Hmail Hloop fin sel correo. subst fin sel correo.
  destruct (handleConfirmarSeleccion_fail sesionId p st st1 err Hsel Hmail Hloop)
    as (Hw & Hc & Hr & _).
  rewrite Hc, Hr, Hw, RoundTrip.getAsientos_store.
  repeat (split; [reflexivity|]).
  apply crear_entradas_trace in Hloop as (nuevos & a & -> & Hlook & Hfail & Hall & Htrace).
  exists nuevos, a. split; [reflexivity|].
  split; [apply lookup_lt_Some in Hlook; exact Hlook|].
  auto.
Qed.

End Batch.

(** C2 read literally fails: the second [crearEntrada] of the batch is
    rejected (seat (A, 2) is taken), and the ticket that the first iteration
    created for seat (A, 1) is still in the store afterwards, shown as
    reserved by the reloaded seat map. *)
Lemma batch_leaves_partial_ticket :
  let fin := handleConfirmarSeleccion 1 pagina_seleccion sala_a2_ocupado in
  (crear_entradas 1 "x@y.com" [asiento_A1; asiento_A2] [] false sala_a2_ocupado).2
    = inl asiento_no_disponible ∧
  Backend.find_ticket (Backend.tickets sala_a2_ocupado) 1 "A" 1 = None ∧
  Backend.find_ticket (Backend.tickets fin.1) 1 "A" 1
    = Some {| Backend.ticketId := 2; Backend.showing := 1; Backend.row := "A";
              Backend.column := 1; Backend.contact := "x@y.com";
              Backend.state := Backend.Reserved |} ∧
  js_of_asiento {| a_fila := "A"; a_numero := 1; a_estado := reservada_a |}
    ∈ asientos fin.2 ∧
  entradasCreadas (cinema fin.2) = [].
Proof.
  vm_compute. repeat split. apply list_elem_of_here.
Qed.

Lemma batch_failure_keeps_earlier_tickets_witness :
  let fin := handleConfirmarSeleccion 1 pagina_seleccion sala_a2_ocupado in
  entradasCreadas (cinema fin.2) = [] ∧
  asientosSeleccionados (cinema fin.2) = [asiento_A1; asiento_A2] ∧
  ∃ t, Backend.tickets fin.1 = Backend.tickets sala_a2_ocupado ++ [t] ∧
       Backend.ticket_de 1 t asiento_A1.
Proof.
  assert (Hloop : crear_entradas 1 (trim (email_campo pagina_seleccion))
            (asientosSeleccionados (cinema pagina_seleccion)) [] false sala_a2_ocupado
          = (Backend.with_tickets
               (Backend.tickets sala_a2_ocupado ++
                  [ {| Backend.ticketId := 2; Backend.showing := 1; Backend.row := "A";
                       Backend.column := 1; Backend.contact := "x@y.com";
                       Backend.state := Backend.Reserved |} ]) sala_a2_ocupado,
             inl asiento_no_disponible)) by reflexivity.
  destruct (Batch.batch_failure_keeps_earlier_tickets 1 pagina_seleccion
              sala_a2_ocupado _ _ ltac:(discriminate) ltac:(discriminate) Hloop)
    as (He & Hs & _ & Hfin & nuevos & a & Ht & _ & _ & _ & Hall & _).
  split; [exact He|]. split; [exact Hs|].
  rewrite Hfin in Ht |- *. cbn [Backend.tickets Backend.with_tickets] in Ht.
  apply app_inv_head in Ht. subst nuevos.
  eexists. split; [reflexivity|].
  cbn [length take] in Hall. change (asientosSeleccionados (cinema pagina_seleccion))
    with [asiento_A1; asiento_A2] in Hall. cbn [take] in Hall.
  apply Forall2_cons in Hall as [Hall _]. exact Hall.
Defined.

(** ** The page groups the seats by row without losing any *)

Lemma asientosPorFila_reduce_foldl (asientos : list Asiento)
    (acc : gmap string (list Asiento)) (k : string) :
  foldl (λ (acc : gmap string (list Asiento)) asiento,
           <[ a_fila asiento :=
                (default [] (acc !! a_fila asiento) ++ [asiento])%list ]> acc)
        acc asientos !! k
  = match de_fila k asientos with
    | [] => acc !! k
    | g => Some (default [] (acc !! k) ++ g)
    end.
Proof.
  revert acc. induction asientos as [|a l IH]; intros acc; [reflexivity|].
  cbn [foldl]. rewrite IH. unfold de_fila. cbn [List.filter].
  destruct (String.eqb (a_fila a) k) eqn:E.
  - apply String.eqb_eq in E. subst k. rewrite lookup_insert_eq.
    change (default [] (Some ?x)) with x.
    destruct (List.filter _ l); [reflexivity|].
    rewrite <- app_assoc. reflexivity.
  - apply String.eqb_neq in E. rewrite lookup_insert_ne by exact E. reflexivity.
Qed.

#[local] Instance por_numero_total : Total por_numero.
Proof. intros a b. unfold por_numero. lia. Qed.

#[local] Instance por_numero_trans : Transitive por_numero.
Proof. intros a b c. unfold por_numero. lia. Qed.

(** Each row of the page holds exactly the seats of that row label, ordered
    by seat number; a label without seats has no row. *)
Lemma asientosPorFila_lookup (asientos : list Asiento) (k : string) :
  match asientosPorFila asientos !! k with
  | Some g => g ≡ₚ de_fila k asientos ∧ StronglySorted por_numero g ∧ g ≠ []
  | None => de_fila k asientos = []
  end.
Proof.
  unfold asientosPorFila, asientosPorFila_reduce.
  rewrite lookup_fmap, asientosPorFila_reduce_foldl, lookup_empty.
  destruct (de_fila k asientos) as [|a g] eqn:E; [reflexivity|].
  change (default [] None ++ a :: g) with (a :: g).
  cbn [fmap option_fmap option_map].
  split; [apply merge_sort_Permutation|].
  split; [apply StronglySorted_merge_sort; apply _|].
  intros Hnil. pose proof (merge_sort_Permutation por_numero (a :: g)) as Hp.
  rewrite Hnil in Hp. apply Permutation_nil_l in Hp. discriminate.
Qed.

Example asientosPorFila_2x2 :
  asientosPorFila [ {| a_fila := "B"; a_numero := 2; a_estado := libre |};
                    {| a_fila := "A"; a_numero := 2; a_estado := libre |};
                    {| a_fila := "B"; a_numero := 1; a_estado := libre |} ] !! "B"
  = Some [ {| a_fila := "B"; a_numero := 1; a_estado := libre |};
           {| a_fila := "B"; a_numero := 2; a_estado := libre |} ].
Proof. vm_compute. reflexivity. Qed.

(** ** The seat map of the manager, read through the client *)

Lemma seat_map_read (st : Backend.Store) sid sh :
  Backend.find_showing st sid = Some sh →
  (Backend.rowCount sh ≤ 26)%nat →
  ∃ asientos : list Asiento,
    getAsientos sid true st = (st, Ok (js_of_asiento <$> asientos)) ∧
    length asientos = (Backend.rowCount sh * Backend.columnCount sh)%nat ∧
    NoDup (coordenada <$> asientos) ∧
    ∀ i j, (i < Backend.rowCount sh)%nat → (j < Backend.columnCount sh)%nat →
           (Backend.row_label i, Z.of_nat (S j)) ∈ coordenada <$> asientos.
Proof.
  intros Hsh Hrows.
  destruct (RoundTrip.seat_map_some _ _ _ Hsh) as [grid Hgrid].
  pose proof (BackendFacts.seat_map_rejilla _ _ _ _ Hsh Hgrid) as Hg.
  pose proof (BackendFacts.seat_map_coordenadas _ _ _ Hgrid) as Hc.
  exists (concat (Backend.asientos_of_grid grid)).
  split; [apply getAsientos_layout, BackendFacts.api_get_asientos, Hgrid|].
  split; [eapply rejilla_length, Hg|]. split.
  - eapply rejilla_coordenadas_NoDup; eauto.
    intros i i' Hi Hi'. apply BackendFacts.row_label_inj; lia.
  - intros i j Hi Hj. eapply rejilla_coordenadas_elem; eauto.
Qed.

(** * Further properties of the client code *)

(** ** lib/auth.ts *)

Lemma truthy_str_Some r : truthy_str (Some r) = true ↔ r ≠ "".
Proof.
  simpl. rewrite negb_true_iff. split; intros E; apply String.eqb_neq, E.
Qed.

Lemma setTokens_lookup tokens b :
  has_window b = true →
  getAccess (setTokens tokens b) = Some (access tokens) ∧
  getRefresh (setTokens tokens b)
    = (if truthy_str (refresh tokens) then refresh tokens else getRefresh b) ∧
  ∀ k, k ≠ ACCESS_KEY → k ≠ REFRESH_KEY →
       localStorage (setTokens tokens b) !! k = localStorage b !! k.
Proof.
  intros Hw. unfold getAccess, getRefresh, setTokens. rewrite Hw. cbn [negb].
  cbn [has_window localStorage]. rewrite ?Hw. cbn [negb].
  destruct (refresh tokens) as [r|]; [destruct (truthy_str (Some r)) eqn:Et|].
  - repeat split.
    + rewrite lookup_insert_ne by discriminate. apply lookup_insert_eq.
    + apply lookup_insert_eq.
    + intros k Ha Hr. rewrite !lookup_insert_ne by congruence. reflexivity.
  - repeat split.
    + apply lookup_insert_eq.
    + rewrite lookup_insert_ne by discriminate. reflexivity.
    + intros k Ha Hr. rewrite !lookup_insert_ne by congruence. reflexivity.
  - repeat split.
    + apply lookup_insert_eq.
    + cbn [truthy_str]. rewrite lookup_insert_ne by discriminate. reflexivity.
    + intros k Ha Hr. rewrite !lookup_insert_ne by congruence. reflexivity.
Qed.

(** X1: in the browser, [setTokens] followed by the getters reads back the
    access token just stored; the refresh token read back is the new one when
    a non-empty one was given, and otherwise the one stored before, which
    [setTokens] keeps; no other key of [localStorage] changes. *)
Theorem setTokens_read_back tokens b :
  has_window b = true →
  getAccess (setTokens tokens b) = Some (access tokens) ∧
  getRefresh (setTokens tokens b)
    = (if truthy_str (refresh tokens) then refresh tokens else getRefresh b) ∧
  ∀ k, k ≠ ACCESS_KEY → k ≠ REFRESH_KEY →
       localStorage (setTokens tokens b) !! k = localStorage b !! k.
Proof. exact (setTokens_lookup tokens b). Qed.

Lemma setTokens_read_back_witness :
  getAccess (setTokens {| access := "a1"; refresh := None |} navegador_con_sesion) = Some "a1" ∧
  getRefresh (setTokens {| access := "a1"; refresh := None |} navegador_con_sesion) = Some "r0".
Proof.
  destruct (setTokens_read_back {| access := "a1"; refresh := None |}
              navegador_con_sesion eq_refl) as (Ha & Hr & _).
  split; [exact Ha | exact Hr].
Defined.

(** X2: after [clearTokens] both getters answer [null], with or without a
    [window], and the check of [AuthProvider] is false; the other keys of
    [localStorage] are untouched. *)
Theorem clearTokens_forgets b :
  getAccess (clearTokens b) = None ∧
  getRefresh (clearTokens b) = None ∧
  AuthProvider_has (clearTokens b) = false ∧
  ∀ k, k ≠ ACCESS_KEY → k ≠ REFRESH_KEY →
       localStorage (clearTokens b) !! k = localStorage b !! k.
Proof.
  unfold getAccess, getRefresh, AuthProvider_has, clearTokens.
  destruct (has_window b) eqn:Hw; cbn [negb has_window localStorage]; rewrite ?Hw;
    cbn [negb andb].
  - repeat split.
    + rewrite lookup_delete_ne by discriminate. apply lookup_delete_eq.
    + apply lookup_delete_eq.
    + change "auth_access" with ACCESS_KEY.
      rewrite lookup_delete_ne by discriminate. rewrite lookup_delete_eq. reflexivity.
    + intros k Ha Hr. rewrite !lookup_delete_ne by congruence. reflexivity.
  - repeat split.
Qed.

Section AuthFacts.
Context {W : Type} `{AuthApi W}.

(** X3: where [window] is undefined the module is inert: the getters answer
    [null], [setTokens] and [clearTokens] change nothing, and [refreshToken]
    throws [Error "No refresh token"] without sending a request. *)
Theorem auth_without_window (b : Browser) (w : W) tokens :
  has_window b = false →
  getAccess b = None ∧ getRefresh b = None ∧
  setTokens tokens b = b ∧ clearTokens b = b ∧
  refreshToken (w, b) = ((w, b), Throw (Error "No refresh token")).
Proof.
  intros Hw. unfold refreshToken, getAccess, getRefresh, setTokens, clearTokens.
  rewrite Hw. repeat split.
Qed.

(** X4: [refreshToken] with no refresh token stored, or an empty one, throws
    [Error "No refresh token"]; no request is sent and nothing is stored. *)
Theorem refreshToken_missing (w : W) b :
  truthy_str (getRefresh b) = false →
  refreshToken (w, b) = ((w, b), Throw (Error "No refresh token")).
Proof. intros Hr. unfold refreshToken. rewrite Hr. reflexivity. Qed.

Lemma refreshToken_sends (w : W) b r :
  getRefresh b = Some r → r ≠ "" →
  refreshToken (w, b) =
  match post_token_refresh r w with
  | (w', Ok a) => ((w', setTokens {| access := a; refresh := None |} b), Ok a)
  | (w', Throw e) => ((w', b), Throw e)
  end.
Proof.
  intros Hr Hne. unfold refreshToken. rewrite Hr.
  assert (Ht : truthy_str (Some r) = true) by (apply truthy_str_Some, Hne).
  rewrite Ht. reflexivity.
Qed.

Lemma getRefresh_window b r : getRefresh b = Some r → has_window b = true.
Proof. unfold getRefresh. destruct (has_window b); [reflexivity | discriminate]. Qed.

(** X5: [refreshToken] with a stored refresh token [r] sends exactly [r].  If
    the server answers with an access token, that token is returned and is
    what [getAccess] reads afterwards, the refresh token staying as it was;
    if the request is rejected, the rejection reaches the caller as it is
    and [localStorage] keeps the old tokens. *)
Theorem refreshToken_outcome (w : W) b r :
  getRefresh b = Some r → r ≠ "" →
  (∀ w' a, post_token_refresh r w = (w', Ok a) →
     ∃ b', refreshToken (w, b) = ((w', b'), Ok a) ∧
           getAccess b' = Some a ∧ getRefresh b' = Some r) ∧
  (∀ w' e, post_token_refresh r w = (w', Throw e) →
     refreshToken (w, b) = ((w', b), Throw e)).
Proof.
  intros Hr Hne. rewrite (refreshToken_sends w b r Hr Hne).
  split; intros w' x Hpost; rewrite Hpost; [|reflexivity].
  eexists. split; [reflexivity|].
  destruct (setTokens_lookup {| access := x; refresh := None |} b
              (getRefresh_window b r Hr)) as (Ha & Hr' & _).
  split; [exact Ha|]. rewrite Hr'. exact Hr.
Qed.

(** X6: a successful [login] in the browser returns the pair the server sent
    and stores it: [getAccess] reads the new access token and, the refresh
    token being non-empty, [getRefresh] reads the new refresh token (an empty
    one leaves the old refresh token in place); a rejected [login] passes the
    rejection on and stores nothing. *)
Theorem login_outcome (w : W) b username password :
  has_window b = true →
  (∀ w' a r, post_token username password w = (w', Ok (a, r)) →
     ∃ b', login username password (w, b) = ((w', b'), Ok (a, r)) ∧
           getAccess b' = Some a ∧
           (r ≠ "" → getRefresh b' = Some r) ∧
           (r = "" → getRefresh b' = getRefresh b)) ∧
  (∀ w' e, post_token username password w = (w', Throw e) →
     login username password (w, b) = ((w', b), Throw e)).
Proof.
  intros Hw. unfold login.
  split; [intros w' a r Hpost | intros w' e Hpost]; rewrite Hpost; [|reflexivity].
  eexists. split; [reflexivity|].
  destruct (setTokens_lookup {| access := a; refresh := Some r |} b Hw) as (Ha & Hr & _).
  split; [exact Ha|]. cbn [refresh] in Hr. split.
  - intros Hne. apply truthy_str_Some in Hne. rewrite Hne in Hr. exact Hr.
  - intros ->. exact Hr.
Qed.

(** X7: [login] and [refreshToken] compose: after a successful [login] that
    received the non-empty refresh token [r], [refreshToken] sends [r], and
    when the server answers with [a2] the stored access token becomes [a2]
    while [r] stays; [AuthProvider] then sees the user as authenticated if
    [a2] is not empty. *)
Theorem login_then_refreshToken (w w1 w2 : W) b b1 username password a r a2 :
  has_window b = true →
  r ≠ "" →
  login username password (w, b) = ((w1, b1), Ok (a, r)) →
  post_token_refresh r w1 = (w2, Ok a2) →
  ∃ b2, refreshToken (w1, b1) = ((w2, b2), Ok a2) ∧
        getAccess b2 = Some a2 ∧ getRefresh b2 = Some r ∧
        (a2 ≠ "" → AuthProvider_has b2 = true).
Proof.
  intros Hw Hne Hlogin Hpost. unfold login in Hlogin.
  destruct (post_token username password w) as [w' [[a' r']|e]]; [|discriminate].
  injection Hlogin as -> <- -> ->.
  set (b1 := setTokens {| access := a; refresh := Some r |} b).
  destruct (setTokens_lookup {| access := a; refresh := Some r |} b Hw) as (_ & Hr1 & _).
  cbn [refresh] in Hr1. rewrite (proj2 (truthy_str_Some r) Hne) in Hr1. fold b1 in Hr1.
  rewrite (refreshToken_sends w1 b1 r Hr1 Hne), Hpost.
  eexists. split; [reflexivity|].
  destruct (setTokens_lookup {| access := a2; refresh := None |} b1
              (getRefresh_window b1 r Hr1)) as (Ha2 & Hr2 & _).
  split; [exact Ha2|]. split; [rewrite Hr2; exact Hr1|].
  intros Ha2ne. unfold AuthProvider_has. unfold getAccess in Ha2.
  destruct (has_window (setTokens _ b1)); [|discriminate]. cbn [negb] in Ha2.
  change "auth_access" with ACCESS_KEY. rewrite Ha2. cbn [access].
  apply truthy_str_Some in Ha2ne. rewrite Ha2ne. reflexivity.
Qed.

End AuthFacts.

Lemma auth_without_window_witness :
  refreshToken (servidor_tokens, navegador_servidor)
  = ((servidor_tokens, navegador_servidor), Throw (Error "No refresh token")).
Proof.
  apply (auth_without_window navegador_servidor servidor_tokens
           {| access := "x"; refresh := None |} eq_refl).
Defined.

Lemma refreshToken_missing_witness :
  refreshToken (servidor_tokens, navegador_vacio)
  = ((servidor_tokens, navegador_vacio), Throw (Error "No refresh token")).
Proof. apply (refreshToken_missing servidor_tokens navegador_vacio). reflexivity. Defined.

Lemma refreshToken_outcome_witness :
  (∃ b', refreshToken (servidor_tokens,
                       setTokens {| access := "a1"; refresh := Some "r1" |} navegador_vacio)
         = ((servidor_tokens, b'), Ok "a2") ∧
         getAccess b' = Some "a2" ∧ getRefresh b' = Some "r1") ∧
  refreshToken (servidor_tokens, navegador_con_sesion)
  = ((servidor_tokens, navegador_con_sesion),
     Throw (AxiosError "Request failed with status code 401"
              (Some {| status := 401; data := JNull |}))).
Proof.
  assert (H1 : post_token_refresh "r1" servidor_tokens = (servidor_tokens, Ok "a2"))
    by reflexivity.
  assert (H0 : post_token_refresh "r0" servidor_tokens
               = (servidor_tokens,
                  Throw (AxiosError "Request failed with status code 401"
                           (Some {| status := 401; data := JNull |}))))
    by reflexivity.
  split.
  - apply (proj1 (refreshToken_outcome servidor_tokens
             (setTokens {| access := "a1"; refresh := Some "r1" |} navegador_vacio) "r1"
             eq_refl ltac:(discriminate)) _ _ H1).
  - apply (proj2 (refreshToken_outcome servidor_tokens navegador_con_sesion "r0"
             eq_refl ltac:(discriminate)) _ _ H0).
Defined.

Lemma login_outcome_witness :
  (∃ b', login "ana" "secreto" (servidor_tokens, navegador_vacio)
         = ((servidor_tokens, b'), Ok ("a1", "r1")) ∧ getAccess b' = Some "a1") ∧
  login "ana" "otra" (servidor_tokens, navegador_vacio)
  = ((servidor_tokens, navegador_vacio),
     Throw (AxiosError "Request failed with status code 401"
              (Some {| status := 401; data := JNull |}))).
Proof.
  assert (H1 : post_token "ana" "secreto" servidor_tokens
               = (servidor_tokens, Ok ("a1", "r1"))) by reflexivity.
  assert (H0 : post_token "ana" "otra" servidor_tokens
               = (servidor_tokens,
                  Throw (AxiosError "Request failed with status code 401"
                           (Some {| status := 401; data := JNull |}))))
    by reflexivity.
  split.
  - destruct (proj1 (login_outcome servidor_tokens navegador_vacio "ana" "secreto" eq_refl)
                _ _ _ H1) as (b' & Hl & Ha & _).
    exists b'. split; [exact Hl | exact Ha].
  - apply (proj2 (login_outcome servidor_tokens navegador_vacio "ana" "otra" eq_refl)
             _ _ H0).
Defined.

Lemma login_then_refreshToken_witness :
  ∃ b2, refreshToken (servidor_tokens,
                      setTokens {| access := "a1"; refresh := Some "r1" |} navegador_vacio)
        = ((servidor_tokens, b2), Ok "a2") ∧
        getAccess b2 = Some "a2" ∧ getRefresh b2 = Some "r1".
Proof.
  assert (Hl : login "ana" "secreto" (servidor_tokens, navegador_vacio)
               = ((servidor_tokens,
                   setTokens {| access := "a1"; refresh := Some "r1" |} navegador_vacio),
                  Ok ("a1", "r1"))) by reflexivity.
  assert (Hp : post_token_refresh "r1" servidor_tokens = (servidor_tokens, Ok "a2"))
    by reflexivity.
  destruct (login_then_refreshToken servidor_tokens servidor_tokens servidor_tokens
              navegador_vacio _ "ana" "secreto" "a1" "r1" "a2"
              eq_refl ltac:(discriminate) Hl Hp)
    as (b2 & Hr & Ha & Hr2 & _).
  exists b2. repeat split; assumption.
Defined.

(** ** The reducer: membership after a toggle *)

Lemma existsb_find {A} (p : A → bool) (l : list A) :
  existsb p l = match List.find p l with Some _ => true | None => false end.
Proof.
  induction l as [|x l IH]; simpl; [reflexivity|].
  destruct (p x); [reflexivity | exact IH].
Qed.

Lemma existsb_filter_otro asiento otro l :
  coordenada otro ≠ coordenada asiento →
  existsb (λ a, mismo_asiento a otro)
          (List.filter (λ a, negb (mismo_asiento a asiento)) l)
  = existsb (λ a, mismo_asiento a otro) l.
Proof.
  intros Hne. induction l as [|x l IH]; simpl; [reflexivity|].
  destruct (mismo_asiento x asiento) eqn:Ea; simpl.
  - destruct (mismo_asiento x otro) eqn:Eo; [|exact IH].
    apply mismo_asiento_coordenada in Ea, Eo. congruence.
  - rewrite IH. reflexivity.
Qed.

Lemma existsb_filter_mismo asiento l :
  existsb (λ a, mismo_asiento a asiento)
          (List.filter (λ a, negb (mismo_asiento a asiento)) l) = false.
Proof.
  induction l as [|x l IH]; simpl; [reflexivity|].
  destruct (mismo_asiento x asiento) eqn:Ea; simpl; [exact IH|].
  rewrite Ea. exact IH.
Qed.

(** X8: [TOGGLE_ASIENTO] flips whether its seat coordinate is selected and
    leaves the answer of [isAsientoSeleccionado] for every other coordinate as
    it was. *)
Theorem toggle_flips_membership state asiento otro :
  coordenada otro ≠ coordenada asiento →
  let despues := cinemaReducer state (TOGGLE_ASIENTO asiento) in
  isAsientoSeleccionado despues asiento = negb (isAsientoSeleccionado state asiento) ∧
  isAsientoSeleccionado despues otro = isAsientoSeleccionado state otro.
Proof.
  intros Hne despues. subst despues. unfold isAsientoSeleccionado.
  rewrite (existsb_find _ (asientosSeleccionados state)). cbn [cinemaReducer].
  destruct (List.find _ (asientosSeleccionados state)) eqn:Hf; cbn [asientosSeleccionados].
  - split; [apply existsb_filter_mismo | apply existsb_filter_otro, Hne].
  - rewrite !existsb_app. cbn [existsb].
    assert (Hself : mismo_asiento asiento asiento = true)
      by (apply mismo_asiento_coordenada; reflexivity).
    assert (Hotro : mismo_asiento asiento otro = false).
    { destruct (mismo_asiento asiento otro) eqn:E; [|reflexivity].
      apply mismo_asiento_coordenada in E. congruence. }
    rewrite Hself, Hotro, !orb_false_r.
    split; [apply orb_true_r | reflexivity].
Qed.

Lemma toggle_flips_membership_witness :
  let state := cinemaReducer initialState (TOGGLE_ASIENTO asiento_A1) in
  isAsientoSeleccionado (cinemaReducer state (TOGGLE_ASIENTO asiento_A2)) asiento_A2 = true ∧
  isAsientoSeleccionado (cinemaReducer state (TOGGLE_ASIENTO asiento_A2)) asiento_A1 = true.
Proof.
  intros state.
  apply (toggle_flips_membership state asiento_A2 asiento_A1). discriminate.
Defined.

(** X9: in a state with a duplicate-free selection, [TOGGLE_ASIENTO] on a
    selected coordinate removes exactly the one entry at that coordinate and
    keeps the others in their order. *)
Theorem toggle_selected_removes_one state asiento :
  seleccion_unica state →
  isAsientoSeleccionado state asiento = true →
  ∃ l1 x l2,
    asientosSeleccionados state = l1 ++ x :: l2 ∧
    coordenada x = coordenada asiento ∧
    asientosSeleccionados (cinemaReducer state (TOGGLE_ASIENTO asiento)) = l1 ++ l2.
Proof.
  unfold seleccion_unica, isAsientoSeleccionado. intros Hnd Hsel.
  apply existsb_exists in Hsel as (x & Hin & Hx).
  apply list_elem_of_In, list_elem_of_split in Hin as (l1 & l2 & Hl).
  exists l1, x, l2. split; [exact Hl|].
  pose proof Hx as Hcx. apply mismo_asiento_coordenada in Hcx. split; [exact Hcx|].
  cbn [cinemaReducer]. rewrite Hl in Hnd |- *.
  rewrite fmap_app, fmap_cons in Hnd.
  apply NoDup_app in Hnd as (Hnd1 & Hdisj & Hnd2).
  apply NoDup_cons in Hnd2 as [Hx2 _].
  assert (Hx1 : coordenada x ∉ coordenada <$> l1).
  { intros Hin1. apply (Hdisj _ Hin1). left. }
  destruct (List.find _ (l1 ++ x :: l2)) eqn:Hf.
  - cbn [asientosSeleccionados]. rewrite List.filter_app. cbn [List.filter].
    rewrite Hx. cbn [negb].
    rewrite !filter_otros_id by (rewrite <- Hcx; assumption). reflexivity.
  - exfalso. eapply find_none in Hf; [|apply in_or_app; right; left; reflexivity].
    simpl in Hf. congruence.
Qed.

Lemma toggle_selected_removes_one_witness :
  let state := cinemaReducer (cinemaReducer initialState (TOGGLE_ASIENTO asiento_A1))
                             (TOGGLE_ASIENTO asiento_A2) in
  ∃ l1 x l2,
    asientosSeleccionados state = l1 ++ x :: l2 ∧
    coordenada x = coordenada asiento_A1 ∧
    asientosSeleccionados (cinemaReducer state (TOGGLE_ASIENTO asiento_A1)) = l1 ++ l2.
Proof.
  intros state. apply (toggle_selected_removes_one state asiento_A1).
  - repeat apply cinemaReducer_seleccion_unica. apply NoDup_nil_2.
  - reflexivity.
Defined.

(** ** The seat page: what clicks can select *)

Lemma Forall_filter_bool {A} (P : A → Prop) (q : A → bool) (l : list A) :
  Forall P l → Forall P (List.filter q l).
Proof.
  induction 1 as [|x l Hx _ IH]; simpl; [constructor|].
  destruct (q x); [constructor; assumption | assumption].
Qed.

Lemma handleAsientoClick_Forall (P : Asiento → Prop) asiento p :
  Forall P (asientosSeleccionados (cinema p)) →
  (a_estado asiento = libre → P asiento) →
  Forall P (asientosSeleccionados (cinema (handleAsientoClick asiento p))).
Proof.
  intros Hall Hp. unfold handleAsientoClick.
  destruct (a_estado asiento) eqn:E; try exact Hall.
  cbn [dispatch cinema cinemaReducer].
  destruct (List.find _ _); cbn [asientosSeleccionados].
  - apply Forall_filter_bool, Hall.
  - apply Forall_app. split; [exact Hall|]. constructor; [auto | constructor].
Qed.

Lemma handleAsientoClick_unica asiento p :
  seleccion_unica (cinema p) →
  seleccion_unica (cinema (handleAsientoClick asiento p)).
Proof.
  intros Hu. unfold handleAsientoClick.
  destruct (a_estado asiento); try exact Hu.
  apply cinemaReducer_seleccion_unica, Hu.
Qed.

(** X10: starting from an empty selection, after any sequence of seat clicks
    every selected seat is one of the clicked seats and had estado "libre"
    when clicked (reserved and paid seats are never selected), and no
    coordinate is selected twice; the clicks touch nothing but the selection. *)
Theorem clicks_select_only_free_seats p (clicks : list Asiento) :
  asientosSeleccionados (cinema p) = [] →
  let q := foldl (λ p a, handleAsientoClick a p) p clicks in
  Forall (λ a, a_estado a = libre ∧ a ∈ clicks) (asientosSeleccionados (cinema q)) ∧
  seleccion_unica (cinema q) ∧
  entradasCreadas (cinema q) = entradasCreadas (cinema p) ∧
  asientos q = asientos p ∧ error q = error p ∧ ruta q = ruta p.
Proof.
  intros Hempty q. subst q.
  assert (Hgen : ∀ (P : Asiento → Prop) cs p0,
             Forall P (asientosSeleccionados (cinema p0)) →
             Forall (λ a, a_estado a = libre → P a) cs →
             Forall P (asientosSeleccionados
                         (cinema (foldl (λ p a, handleAsientoClick a p) p0 cs)))).
  { intros P cs. induction cs as [|c cs IH]; intros p0 H0 Hcs; simpl; [exact H0|].
    apply Forall_cons in Hcs as [Hc Hcs].
    apply IH; [apply handleAsientoClick_Forall; assumption | exact Hcs]. }
  assert (Hu : ∀ cs p0, seleccion_unica (cinema p0) →
             seleccion_unica (cinema (foldl (λ p a, handleAsientoClick a p) p0 cs))).
  { induction cs as [|c cs IH]; intros p0 H0; simpl; [exact H0|].
    apply IH, handleAsientoClick_unica, H0. }
  assert (Hframe : ∀ cs p0,
             let q := foldl (λ p a, handleAsientoClick a p) p0 cs in
             entradasCreadas (cinema q) = entradasCreadas (cinema p0) ∧
             asientos q = asientos p0 ∧ error q = error p0 ∧ ruta q = ruta p0).
  { induction cs as [|c cs IH]; intros p0; simpl; [auto|].
    destruct (IH (handleAsientoClick c p0)) as (H1 & H2 & H3 & H4).
    rewrite H1, H2, H3, H4. unfold handleAsientoClick.
    destruct (a_estado c); auto.
    cbn [dispatch cinema asientos error ruta cinemaReducer].
    destruct (List.find _ _); auto. }
  split; [|split; [|apply Hframe]].
  - apply Hgen; [rewrite Hempty; constructor|].
    apply Forall_forall. intros a Ha Hl. auto.
  - apply Hu. unfold seleccion_unica. rewrite Hempty. apply NoDup_nil_2.
Qed.

Lemma clicks_select_only_free_seats_witness :
  let q := foldl (λ p a, handleAsientoClick a p)
             {| asientos := []; loading := false; error := None; email_campo := "";
                creandoEntradas := false; cinema := initialState; ruta := None |}
             [ asiento_A1; {| a_fila := "A"; a_numero := 2; a_estado := reservada_a |} ] in
  Forall (λ a, a_estado a = libre ∧
               a ∈ [ asiento_A1; {| a_fila := "A"; a_numero := 2; a_estado := reservada_a |} ])
         (asientosSeleccionados (cinema q)).
Proof.
  intros q.
  apply (clicks_select_only_free_seats
           {| asientos := []; loading := false; error := None; email_campo := "";
              creandoEntradas := false; cinema := initialState; ruta := None |}
           [ asiento_A1; {| a_fila := "A"; a_numero := 2; a_estado := reservada_a |} ]).
  reflexivity.
Defined.

(** ** The seat page: confirming a selection *)

Section ConfirmFacts.
Context {W : Type} `{Api W}.

(** X11: with no seat selected, or with an email that is blank after
    trimming, [handleConfirmarSeleccion] sends no request and changes nothing
    but the error message: "Debe seleccionar al menos un asiento" in the first
    case (which is tested first), "El email es requerido" in the second. *)
Theorem handleConfirmarSeleccion_validation sesionId p (w : W) :
  asientosSeleccionados (cinema p) = [] ∨ trim (email_campo p) = "" →
  handleConfirmarSeleccion sesionId p w =
  (w, setError (Some (if (length (asientosSeleccionados (cinema p)) =? 0)%nat
                      then "Debe seleccionar al menos un asiento"
                      else "El email es requerido")) p).
Proof.
  intros Hv. unfold handleConfirmarSeleccion.
  destruct ((length (asientosSeleccionados (cinema p)) =? 0)%nat) eqn:El; [reflexivity|].
  destruct Hv as [Hs|Hm]; [rewrite Hs in El; discriminate|].
  rewrite Hm. reflexivity.
Qed.

Lemma crear_entradas_ok sesionId correo pendientes entradas hs (w w' : W) todas hs' :
  crear_entradas sesionId correo pendientes entradas hs w = (w', inr (todas, hs')) →
  ∃ nuevas, todas = entradas ++ nuevas ∧
            length nuevas = length pendientes ∧
            hs' = hs || existsb simulated nuevas.
Proof.
  revert entradas hs w.
  induction pendientes as [|a rest IH]; intros entradas hs w; cbn [crear_entradas].
  - intros [= <- <- <-]. exists []. rewrite app_nil_r, orb_false_r. auto.
  - destruct (crearEntrada _ w) as [w1 [e|err]]; [|discriminate].
    intros Hloop. apply IH in Hloop as (nuevas & -> & Hlen & ->).
    exists (e :: nuevas). rewrite <- app_assoc. cbn [app length existsb].
    split; [reflexivity|]. split; [lia|].
    destruct (simulated e), hs; reflexivity.
Qed.

Lemma handleConfirmarSeleccion_ok sesionId p (w w1 : W) entradas hs :
  asientosSeleccionados (cinema p) ≠ [] →
  trim (email_campo p) ≠ "" →
  crear_entradas sesionId (trim (email_campo p))
    (asientosSeleccionados (cinema p)) [] false w = (w1, inr (entradas, hs)) →
  handleConfirmarSeleccion sesionId p w =
  (w1, {| asientos := asientos p; loading := loading p; error := None;
          email_campo := email_campo p; creandoEntradas := false;
          cinema := {| pelicula := pelicula (cinema p);
                       sesion_actual := sesion_actual (cinema p);
                       asientosSeleccionados := [];
                       entradasCreadas := con_isDemo hs <$> entradas |};
          ruta := Some "/confirmacion" |}).
Proof.
  intros Hsel Hmail Hloop. unfold handleConfirmarSeleccion.
  destruct (asientosSeleccionados (cinema p)) as [|a sel] eqn:Es; [congruence|].
  cbn [length Nat.eqb].
  destruct (String.eqb (trim (email_campo p)) "") eqn:Em.
  { apply String.eqb_eq in Em. congruence. }
  rewrite Hloop. reflexivity.
Qed.


(** X13: the demo flag is all or nothing.  After a successful batch every
    created entry carries the same [isDemo], which is true exactly when the
    server marked at least one of the answers as [simulated]; that is also
    what [hasSimulatedEntries] of the confirmation page then reads. *)
Theorem isDemo_uniform sesionId p (w w1 : W) entradas hs :
  asientosSeleccionados (cinema p) ≠ [] →
  trim (email_campo p) ≠ "" →
  crear_entradas sesionId (trim (email_campo p))
    (asientosSeleccionados (cinema p)) [] false w = (w1, inr (entradas, hs)) →
  let fin := handleConfirmarSeleccion sesionId p w in
  hs = existsb simulated entradas ∧
  Forall (λ e, isDemo e = hs) (entradasCreadas (cinema fin.2)) ∧
  hasSimulatedEntries (cinema fin.2) = hs.
Proof.
  intros Hsel Hmail Hloop fin. subst fin.
  rewrite (handleConfirmarSeleccion_ok _ _ _ _ _ _ Hsel Hmail Hloop).
  cbn [snd cinema entradasCreadas]. unfold hasSimulatedEntries. cbn [entradasCreadas].
  apply crear_entradas_ok in Hloop as (nuevas & Hn & Hlen & Hhs).
  cbn [app orb] in Hn, Hhs. subst entradas.
  split; [exact Hhs|]. split.
  - apply Forall_fmap, Forall_forall. intros e _. reflexivity.
  - destruct nuevas as [|e nuevas].
    + destruct (asientosSeleccionados (cinema p)); [congruence | discriminate].
    + cbn [fmap list_fmap existsb con_isDemo isDemo].
      destruct hs; [reflexivity|]. cbn [orb].
      clear. induction nuevas as [|x l IH]; [reflexivity | exact IH].
Qed.

(** X14: [cargarAsientos] never reports an error: [getAsientos] swallows
    every failure, so the page always ends with [loading] false and [error]
    null, and a rejected request silently leaves an empty seat list; the
    context, the email field and the route are not touched. *)
Theorem cargarAsientos_settles sesionId p (w : W) :
  let fin := cargarAsientos sesionId p w in
  loading fin.2 = false ∧ error fin.2 = None ∧
  (∀ w' e, api_get (SesionAsientos sesionId) (params_asientos true) w = (w', Throw e) →
           fin.1 = w' ∧ asientos fin.2 = []) ∧
  cinema fin.2 = cinema p ∧ email_campo fin.2 = email_campo p ∧ ruta fin.2 = ruta p ∧
  creandoEntradas fin.2 = creandoEntradas p.
Proof.
  intros fin. subst fin. unfold cargarAsientos. rewrite getAsientos_spec.
  cbn [snd fst setLoading setAsientos setError loading error asientos cinema
       email_campo ruta creandoEntradas].
  split; [reflexivity|]. split; [reflexivity|]. split; [|repeat split].
  intros w' e Hget. rewrite Hget. split; reflexivity.
Qed.

End ConfirmFacts.

Lemma handleConfirmarSeleccion_validation_witness :
  handleConfirmarSeleccion 1
    {| asientos := []; loading := false; error := None; email_campo := "   ";
       creandoEntradas := false;
       cinema := cinemaReducer initialState (TOGGLE_ASIENTO asiento_A1); ruta := None |}
    servidor_acepta
  = (servidor_acepta,
     {| asientos := []; loading := false; error := Some "El email es requerido";
        email_campo := "   "; creandoEntradas := false;
        cinema := cinemaReducer initialState (TOGGLE_ASIENTO asiento_A1); ruta := None |}).
Proof.
  apply (handleConfirmarSeleccion_validation 1
           {| asientos := []; loading := false; error := None; email_campo := "   ";
              creandoEntradas := false;
              cinema := cinemaReducer initialState (TOGGLE_ASIENTO asiento_A1);
              ruta := None |} servidor_acepta).
  right. reflexivity.
Defined.


Lemma isDemo_uniform_witness :
  hasSimulatedEntries (cinema (handleConfirmarSeleccion 1 pagina_seleccion servidor_acepta).2)
  = true.
Proof.
  destruct (crear_entradas 1 (trim (email_campo pagina_seleccion))
              (asientosSeleccionados (cinema pagina_seleccion)) [] false servidor_acepta)
    as [w1 r] eqn:Hloop.
  assert (Hr : ∃ entradas, r = inr (entradas, true)).
  { vm_compute in Hloop. injection Hloop as _ <-. eauto. }
  destruct Hr as (entradas & ->).
  destruct (isDemo_uniform 1 pagina_seleccion servidor_acepta w1 entradas true
              ltac:(discriminate) ltac:(discriminate) Hloop) as (_ & _ & Hh).
  exact Hh.
Defined.

Lemma cargarAsientos_settles_witness :
  (cargarAsientos 1 pagina_seleccion servidor_caido).1 = servidor_caido ∧
  asientos (cargarAsientos 1 pagina_seleccion servidor_caido).2 = [].
Proof.
  destruct (cargarAsientos_settles 1 pagina_seleccion servidor_caido) as (_ & _ & Hf & _).
  apply (Hf servidor_caido (AxiosError "Network Error" None)). reflexivity.
Defined.

(** ** The requests a batch sends *)

Lemma hasta_rechazo_guion (w1 w2 : Registro.World) payloads :
  Registro.guion w1 = Registro.guion w2 →
  Registro.hasta_rechazo w1 payloads = Registro.hasta_rechazo w2 payloads.
Proof.
  intros Hg. induction payloads as [|x rest IH]; cbn [Registro.hasta_rechazo]; [reflexivity|].
  unfold Registro.rechazado. rewrite Hg, IH. reflexivity.
Qed.

Lemma registro_crear_entradas sesionId correo pendientes entradas hs (w : Registro.World) :
  Registro.guion (crear_entradas sesionId correo pendientes entradas hs w).1
  = Registro.guion w ∧
  Registro.enviados (crear_entradas sesionId correo pendientes entradas hs w).1
  = Registro.enviados w ++
    Registro.hasta_rechazo w (payload_de sesionId correo <$> pendientes).
Proof.
  revert entradas hs w.
  induction pendientes as [|a rest IH]; intros entradas hs w.
  - cbn. rewrite app_nil_r. auto.
  - cbn [crear_entradas fmap list_fmap Registro.hasta_rechazo].
    unfold crearEntrada, try_catch, Registro.rechazado.
    cbn [api_post_entradas Registro.api].
    change {| p_sesion := sesionId; p_fila := a_fila a; p_numero := a_numero a;
              p_email := correo |} with (payload_de sesionId correo a).
    destruct (Registro.guion w (payload_de sesionId correo a)) as [e|err] eqn:Hg.
    + set (w1 := {| Registro.guion := Registro.guion w;
                    Registro.enviados := Registro.enviados w
                                         ++ [payload_de sesionId correo a] |}).
      destruct (IH (entradas ++ [e]) (if simulated e then true else hs) w1) as [IHg IHe].
      split; [exact IHg|]. rewrite IHe.
      rewrite (hasta_rechazo_guion w1 w) by reflexivity.
      subst w1. cbn [Registro.enviados]. rewrite <- app_assoc. reflexivity.
    + destruct (_ || _); cbn; auto.
Qed.

(** X15: against a server that answers by a fixed script, the batch posts
    one body per selected seat, in selection order, each with the page's
    session id, the seat's fila and numero and the trimmed email, and it
    posts nothing after the first body the server rejects. *)
Theorem batch_requests_in_order sesionId p (w : Registro.World) :
  asientosSeleccionados (cinema p) ≠ [] →
  trim (email_campo p) ≠ "" →
  Registro.enviados (handleConfirmarSeleccion sesionId p w).1
  = Registro.enviados w ++
    Registro.hasta_rechazo w
      (payload_de sesionId (trim (email_campo p)) <$> asientosSeleccionados (cinema p)).
Proof.
  intros Hsel Hmail.
  pose proof (registro_crear_entradas sesionId (trim (email_campo p))
                (asientosSeleccionados (cinema p)) [] false w) as Hloop.
  destruct (crear_entradas sesionId (trim (email_campo p))
              (asientosSeleccionados (cinema p)) [] false w) as [w1 [err|[entradas hs]]]
    eqn:Hl; cbn [fst] in Hloop; destruct Hloop as [_ He].
  - destruct (handleConfirmarSeleccion_fail sesionId p w w1 err Hsel Hmail Hl) as [Hw _].
    rewrite Hw, getAsientos_spec. exact He.
  - rewrite (handleConfirmarSeleccion_ok _ _ _ _ _ _ Hsel Hmail Hl). exact He.
Qed.

(** ** The listing and showings pages *)

Section ListingFacts.
Context {W : Type} `{Api W}.

(** X16: [cargarPeliculas] never shows its error message: [getPeliculas]
    swallows every failure, so the page always ends with [loading] false and
    no error, and with an empty list when the request is rejected.  A search
    text is sent as the [search] parameter only when it is not empty:
    [handleBuscar] with an empty search box asks for the unfiltered listing. *)
Theorem cargarPeliculas_settles search p (w : W) :
  let fin := cargarPeliculas search p w in
  let params := if truthy_str search then [("search", JStr (default "" search))] else [] in
  ct_loading fin.2 = false ∧ ct_error fin.2 = None ∧
  fin.1 = (api_get PeliculasList params w).1 ∧
  ct_peliculas fin.2 = match (api_get PeliculasList params w).2 with
                       | Ok data => default [] (lista_de data)
                       | Throw _ => []
                       end ∧
  (ct_busqueda p = "" → handleBuscar p w = cargarPeliculas None p w).
Proof.
  cbn zeta. unfold handleBuscar, cargarPeliculas. rewrite !getPeliculas_spec.
  destruct (truthy_str search); repeat split; intros ->; reflexivity.
Qed.

Lemma mapped_pelicula_id_only (n : Z) :
  mapped (Some [("pelicula_id", JNum n)])
  = if Z.eqb n 0 then [] else [("pelicula", JNum n)].
Proof. unfold mapped. cbn. destruct (Z.eqb n 0); reflexivity. Qed.

(** X17: [cargarSesiones] asks for the showings of its film with the query
    [pelicula=<id>] and never [pelicula_id]; for the id 0 the filter is
    dropped and the unfiltered listing is requested.  It never shows its
    error message, and a rejected request leaves an empty list. *)
Theorem cargarSesiones_settles peliculaId p (w : W) :
  let query := if Z.eqb peliculaId 0 then [] else [("pelicula", JNum peliculaId)] in
  cargarSesiones peliculaId p w =
  ((api_get SesionesList query w).1,
   {| ss_sesiones := match (api_get SesionesList query w).2 with
                     | Ok data => default [] (lista_de data)
                     | Throw _ => []
                     end;
      ss_loading := false; ss_error := None |}).
Proof.
  cbn zeta. unfold cargarSesiones.
  rewrite getSesiones_spec, mapped_pelicula_id_only. reflexivity.
Qed.

End ListingFacts.

(** ** The query object of [getSesiones] *)

Lemma obj_get_delete props k k' :
  obj_get (obj_delete props k) k' = if String.eqb k k' then JUndefined else obj_get props k'.
Proof.
  induction props as [|[k0 v] rest IH]; cbn [obj_delete obj_get].
  - destruct (String.eqb k k'); reflexivity.
  - destruct (String.eqb k0 k) eqn:E0.
    + rewrite IH. apply String.eqb_eq in E0. subst k0.
      destruct (String.eqb k k'); reflexivity.
    + cbn [obj_get]. rewrite IH.
      destruct (String.eqb k0 k') eqn:E1; [|reflexivity].
      apply String.eqb_eq in E1. subst k0.
      rewrite String.eqb_sym, E0. reflexivity.
Qed.

Lemma obj_get_set props k v k' :
  obj_get (obj_set props k v) k' = if String.eqb k k' then v else obj_get props k'.
Proof.
  induction props as [|[k0 v0] rest IH]; cbn [obj_set obj_get].
  - destruct (String.eqb k k'); reflexivity.
  - destruct (String.eqb k0 k) eqn:E0; cbn [obj_get].
    + apply String.eqb_eq in E0. subst k0.
      destruct (String.eqb k k'); reflexivity.
    + rewrite IH. destruct (String.eqb k0 k') eqn:E1; [|reflexivity].
      apply String.eqb_eq in E1. subst k0.
      rewrite String.eqb_sym, E0. reflexivity.
Qed.

(** X18: the query [mapped] that [getSesiones] sends never has a
    [pelicula_id] member; its [pelicula] member is the caller's [pelicula]
    when that is truthy or when [pelicula_id] is falsy, and otherwise the
    caller's [pelicula_id]; every other member is passed on as given. *)
Theorem mapped_query params :
  obj_get (mapped params) "pelicula_id" = JUndefined ∧
  obj_get (mapped params) "pelicula"
    = (if truthy (obj_get (default [] params) "pelicula_id")
          && negb (truthy (obj_get (default [] params) "pelicula"))
       then obj_get (default [] params) "pelicula_id"
       else obj_get (default [] params) "pelicula") ∧
  ∀ k, k ≠ "pelicula" → k ≠ "pelicula_id" →
       obj_get (mapped params) k = obj_get (default [] params) k.
Proof.
  unfold mapped. set (q := default [] params).
  split; [rewrite obj_get_delete; reflexivity|]. split.
  - rewrite obj_get_delete. cbn [String.eqb Ascii.eqb Bool.eqb].
    destruct (truthy (obj_get q "pelicula_id") && negb (truthy (obj_get q "pelicula")));
      [|reflexivity].
    rewrite obj_get_set. reflexivity.
  - intros k Hk Hid. rewrite obj_get_delete.
    assert (E1 : String.eqb "pelicula_id" k = false) by (apply String.eqb_neq; congruence).
    rewrite E1.
    destruct (truthy (obj_get q "pelicula_id") && negb (truthy (obj_get q "pelicula")));
      [|reflexivity].
    rewrite obj_get_set.
    assert (E2 : String.eqb "pelicula" k = false) by (apply String.eqb_neq; congruence).
    rewrite E2. reflexivity.
Qed.

(** ** Rows of a layout that are not arrays *)

Lemma push_filas_validas layout acc :
  push_filas layout acc = acc ++ concat (filas_validas layout).
Proof.
  revert acc. induction layout as [|v rest IH]; intros acc; cbn [push_filas].
  - cbn. rewrite app_nil_r. reflexivity.
  - unfold filas_validas in *.
    destruct v; cbn [omap list_omap]; rewrite IH; try reflexivity.
    cbn [concat]. rewrite app_assoc. reflexivity.
Qed.

(** X19: [getAsientos] keeps the elements of the rows of [layout] that are
    arrays, in order, and silently drops every row that is not an array (a
    [null], an object, a number), whatever the rest of the layout holds. *)
Theorem getAsientos_skips_bad_rows `{Api W} sesionId includeEstado (w w' : W) data layout :
  api_get (SesionAsientos sesionId) (params_asientos includeEstado) w = (w', Ok data) →
  layout_de data = Some layout →
  getAsientos sesionId includeEstado w = (w', Ok (concat (filas_validas layout))).
Proof.
  intros Hget Hl. rewrite getAsientos_spec, Hget. cbn [fst snd]. rewrite Hl.
  change (default [] (Some layout)) with layout.
  rewrite push_filas_validas. reflexivity.
Qed.

Lemma batch_requests_in_order_witness :
  Registro.enviados (handleConfirmarSeleccion 7
                       {| asientos := []; loading := false; error := None;
                          email_campo := " x@y.com "; creandoEntradas := false;
                          cinema := {| pelicula := None; sesion_actual := None;
                                       asientosSeleccionados :=
                                         [asiento_A2; asiento_A1; asiento_A2];
                                       entradasCreadas := [] |};
                          ruta := None |} registro_rechaza_1).1
  = [ {| p_sesion := 7; p_fila := "A"; p_numero := 2; p_email := "x@y.com" |};
      {| p_sesion := 7; p_fila := "A"; p_numero := 1; p_email := "x@y.com" |} ].
Proof.
  rewrite batch_requests_in_order; [reflexivity | discriminate | discriminate].
Defined.

Lemma getAsientos_skips_bad_rows_witness :
  getAsientos 1 true servidor_filas_raras
  = (servidor_filas_raras, Ok [JNum 1; JNum 2; JNum 3]).
Proof.
  assert (Hget : api_get (SesionAsientos 1) (params_asientos true) servidor_filas_raras
                 = (servidor_filas_raras,
                    Ok (JObj [("layout", JArr [ JNull; JArr [JNum 1; JNum 2]; JObj [];
                                                JArr [JNum 3] ])]))) by reflexivity.
  apply (getAsientos_skips_bad_rows 1 true _ _ _
           [ JNull; JArr [JNum 1; JNum 2]; JObj []; JArr [JNum 3] ] Hget).
  reflexivity.
Defined.

(** ** The confirmation page: what a payment attempt leaves behind *)

Section PaymentExtras.
Context {W : Type} `{Api W}.

Lemma handlePagar_cases entradaId p (w : W) :
  handlePagar entradaId p w =
  match pagarEntrada entradaId w with
  | (w', Ok _) =>
      (w', {| pagandoEntradas := ({[ entradaId ]} ∪ pagandoEntradas p) ∖ {[ entradaId ]};
              c_error := None;
              c_cinema :=
                {| pelicula := pelicula (c_cinema p);
                   sesion_actual := sesion_actual (c_cinema p);
                   asientosSeleccionados := asientosSeleccionados (c_cinema p);
                   entradasCreadas :=
                     entradasActualizadas entradaId (entradasCreadas (c_cinema p)) |} |})
  | (w', Throw _) =>
      (w', {| pagandoEntradas := ({[ entradaId ]} ∪ pagandoEntradas p) ∖ {[ entradaId ]};
              c_error := Some "Error al procesar el pago";
              c_cinema := c_cinema p |})
  end.
Proof.
  unfold handlePagar. destruct (pagarEntrada entradaId w) as [w' [e|err]]; reflexivity.
Qed.


Lemma existsb_isDemo_actualizadas entradaId l :
  existsb isDemo (entradasActualizadas entradaId l) = existsb isDemo l.
Proof.
  unfold entradasActualizadas. induction l as [|e l IH]; [reflexivity|].
  rewrite fmap_cons. cbn [existsb]. rewrite IH.
  destruct (Z.eqb (id e) entradaId); reflexivity.
Qed.

(** A payment run with nothing in between never re-labels a ticket:
    whatever the outcome, the list keeps its length and order, every entry
    keeps its id, seat, session and email, an entry that was "pagada" is
    still "pagada", the selection is untouched and the demo banner
    ([hasSimulatedEntries]) shows as before.  Overlapping payments are another
    matter, see [overlapping_payments_lose_update]. *)
Lemma handlePagar_monotone entradaId p (w : W) :
  let antes := entradasCreadas (c_cinema p) in
  let fin := handlePagar entradaId p w in
  let despues := entradasCreadas (c_cinema fin.2) in
  length despues = length antes ∧
  (∀ (i : nat) e, antes !! i = Some e →
     ∃ e', despues !! i = Some e' ∧
           id e' = id e ∧ sesion e' = sesion e ∧ fila e' = fila e ∧
           numero e' = numero e ∧ email e' = email e ∧
           (estado e = pagada → estado e' = pagada)) ∧
  asientosSeleccionados (c_cinema fin.2) = asientosSeleccionados (c_cinema p) ∧
  hasSimulatedEntries (c_cinema fin.2) = hasSimulatedEntries (c_cinema p).
Proof.
  cbn zeta. rewrite handlePagar_cases.
  destruct (pagarEntrada entradaId w) as [w' [e0|err]];
    cbn [snd c_cinema entradasCreadas asientosSeleccionados]; unfold hasSimulatedEntries;
    cbn [entradasCreadas].
  - split; [unfold entradasActualizadas; apply length_fmap|].
    split; [|split; [reflexivity | apply existsb_isDemo_actualizadas]].
    intros i e Hi. rewrite entradasActualizadas_lookup, Hi. cbn.
    eexists. split; [reflexivity|].
    destruct (Z.eqb (id e) entradaId); cbn; auto 10.
  - split; [reflexivity|]. split; [|auto].
    intros i e Hi. exists e. auto 10.
Qed.

End PaymentExtras.

Lemma entradasActualizadas_absent entradaId l :
  entradaId ∉ id <$> l → entradasActualizadas entradaId l = l.
Proof.
  unfold entradasActualizadas. induction l as [|e l IH]; [reflexivity|].
  rewrite fmap_cons, not_elem_of_cons. intros [Hne Hl].
  cbn [fmap list_fmap]. apply not_eq_sym, Z.eqb_neq in Hne. rewrite Hne.
  f_equal. apply IH, Hl.
Qed.

(** X22: marking as paid commutes and ignores unknown ids: the updates for
    two ticket ids give the same list in either order, and the update for an
    id that no entry of the list carries returns the list unchanged. *)
Theorem entradasActualizadas_commute i j l :
  entradasActualizadas i (entradasActualizadas j l)
  = entradasActualizadas j (entradasActualizadas i l) ∧
  (i ∉ id <$> l → entradasActualizadas i l = l).
Proof.
  split; [|apply entradasActualizadas_absent].
  unfold entradasActualizadas. rewrite <- !list_fmap_compose.
  apply list_fmap_ext. intros _ e _. cbn.
  destruct (Z.eqb (id e) j) eqn:Ej, (Z.eqb (id e) i) eqn:Ei; cbn;
    rewrite ?Ej, ?Ei; reflexivity.
Qed.

Lemma foldr_entradasActualizadas (ids : list Z) l :
  foldr entradasActualizadas l ids
  = (λ e, if existsb (Z.eqb (id e)) ids then con_estado pagada e else e) <$> l.
Proof.
  induction ids as [|i ids IH]; cbn [foldr existsb].
  - symmetry. apply list_fmap_id.
  - rewrite IH. unfold entradasActualizadas. rewrite <- list_fmap_compose.
    apply list_fmap_ext. intros _ e _. cbn.
    destruct (existsb (Z.eqb (id e)) ids); cbn;
      destruct (Z.eqb (id e) i); reflexivity.
Qed.

(** The pure update folded over ids that cover the list sets [estado] to
    "pagada" throughout and changes nothing else. *)
Lemma pay_all_all_paid (ids : list Z) l :
  (∀ e, e ∈ l → id e ∈ ids) →
  foldr entradasActualizadas l ids = con_estado pagada <$> l.
Proof.
  intros Hcov. rewrite foldr_entradasActualizadas.
  apply list_fmap_ext. intros i e He.
  apply list_elem_of_lookup_2, Hcov in He.
  assert (Hex : existsb (Z.eqb (id e)) ids = true).
  { apply existsb_exists. exists (id e). split; [apply list_elem_of_In, He | apply Z.eqb_refl]. }
  rewrite Hex. reflexivity.
Qed.

Lemma pay_all_all_paid_witness :
  foldr entradasActualizadas [entrada_1; entrada_2] [2; 9; 1; 2]
  = [con_estado pagada entrada_1; con_estado pagada entrada_2].
Proof.
  apply (pay_all_all_paid [2; 9; 1; 2] [entrada_1; entrada_2]).
  intros e He. apply list_elem_of_In in He.
  destruct He as [He|[He|He]]; [rewrite <- He | rewrite <- He | destruct He];
    apply list_elem_of_In; cbn; auto.
Defined.

(** ** The poster of a film *)

Lemma includes_nil_r needle : needle ≠ "" → includes needle "" = false.
Proof. destruct needle; [congruence | reflexivity]. Qed.

(** X24: the [src] the listing computes for a poster is never empty and
    never contains "example.com": a missing or empty [poster_url], and one
    that mentions example.com, are replaced by the fallback image, every
    other url is used as it is. *)
Theorem poster_src_safe (poster_url : option string) :
  poster_src poster_url ≠ "" ∧
  includes "example.com" (poster_src poster_url) = false ∧
  (∀ url, poster_url = Some url → url ≠ "" → includes "example.com" url = false →
          poster_src poster_url = url).
Proof.
  unfold poster_src. split; [|split].
  - destruct poster_url as [url|]; cbn [truthy_str default]; [|discriminate].
    destruct (String.eqb url "") eqn:E; cbn [negb andb]; [discriminate|].
    destruct (negb _); [|discriminate].
    change (default "" (Some url)) with url. apply String.eqb_neq, E.
  - destruct poster_url as [url|]; cbn [truthy_str]; [|reflexivity].
    destruct (String.eqb url "") eqn:E; cbn [negb andb]; [reflexivity|].
    change (default "" (Some url)) with url.
    destruct (includes "example.com" url) eqn:Ei; cbn [negb]; [reflexivity | exact Ei].
  - intros url -> Hne Hi. cbn [truthy_str].
    apply String.eqb_neq in Hne. rewrite Hne. cbn [negb andb].
    change (default "" (Some url)) with url. rewrite Hi. reflexivity.
Qed.

Lemma poster_src_safe_witness :
  poster_src (Some "https://cdn.cine.es/p/1.jpg") = "https://cdn.cine.es/p/1.jpg" ∧
  poster_src (Some "https://example.com/p/1.jpg") = "/abstract-movie-poster.png".
Proof.
  split; [|reflexivity].
  apply (proj2 (proj2 (poster_src_safe (Some "https://cdn.cine.es/p/1.jpg")))
           "https://cdn.cine.es/p/1.jpg" eq_refl); [discriminate | reflexivity].
Defined.

(** ** The error message after a failed batch, and the rows of the seat map *)

(** X25: after a batch in which a [crearEntrada] failed, the page shows no
    error message: the message set in the [catch] of the loop is cleared by
    the [setError(null)] with which the reload [cargarAsientos] starts, and
    that reload never fails. *)
Theorem failed_batch_shows_no_error `{Api W} sesionId p (w w1 : W) err :
  asientosSeleccionados (cinema p) ≠ [] →
  trim (email_campo p) ≠ "" →
  crear_entradas sesionId (trim (email_campo p))
    (asientosSeleccionados (cinema p)) [] false w = (w1, inl err) →
  error (handleConfirmarSeleccion sesionId p w).2 = None ∧
  loading (handleConfirmarSeleccion sesionId p w).2 = false ∧
  creandoEntradas (handleConfirmarSeleccion sesionId p w).2 = false.
Proof.
  intros Hsel Hmail Hloop.
  split; [apply (handleConfirmarSeleccion_fail_error _ _ _ _ _ Hsel Hmail Hloop)|].
  split; [|apply (handleConfirmarSeleccion_fail _ _ _ _ _ Hsel Hmail Hloop)].
  unfold handleConfirmarSeleccion.
  destruct (asientosSeleccionados (cinema p)) as [|a sel] eqn:Es; [congruence|].
  cbn [length Nat.eqb].
  destruct (String.eqb (trim (email_campo p)) "") eqn:Em.
  { apply String.eqb_eq in Em. congruence. }
  rewrite Hloop. unfold cargarAsientos. rewrite getAsientos_spec. reflexivity.
Qed.

Lemma failed_batch_shows_no_error_witness :
  error (handleConfirmarSeleccion 1 pagina_seleccion servidor_rechaza).2 = None.
Proof.
  apply (failed_batch_shows_no_error 1 pagina_seleccion servidor_rechaza
           servidor_rechaza asiento_no_disponible);
    [discriminate | discriminate | reflexivity].
Defined.

(** X26: the rows the seat page lays out neither lose nor invent seats: the
    group of a row label is a permutation of the seats carrying that label,
    ordered by seat number, and a label has a group exactly when some seat
    carries it (there are no empty rows). *)
Theorem asientosPorFila_groups (asientos : list Asiento) (k : string) :
  (asientosPorFila asientos !! k = None ↔ ∀ a, a ∈ asientos → a_fila a ≠ k) ∧
  (∀ g, asientosPorFila asientos !! k = Some g →
        g ≡ₚ de_fila k asientos ∧ StronglySorted por_numero g ∧
        Forall (λ a, a_fila a = k ∧ a ∈ asientos) g).
Proof.
  pose proof (asientosPorFila_lookup asientos k) as Hl.
  assert (Hfil : ∀ a, a ∈ de_fila k asientos ↔ a ∈ asientos ∧ a_fila a = k).
  { intros a. unfold de_fila. rewrite !list_elem_of_In, filter_In, String.eqb_eq.
    reflexivity. }
  destruct (asientosPorFila asientos !! k) as [g|]; split.
  - destruct Hl as (Hp & _ & Hne). split; [discriminate|].
    intros Hnone. exfalso. destruct g as [|a g]; [congruence|].
    assert (Ha : a ∈ de_fila k asientos) by (rewrite <- Hp; left).
    apply Hfil in Ha as [Ha Hk]. exact (Hnone a Ha Hk).
  - intros g' [= <-]. destruct Hl as (Hp & Hs & _).
    split; [exact Hp|]. split; [exact Hs|].
    apply Forall_forall. intros a Ha. rewrite Hp in Ha.
    apply Hfil in Ha. tauto.
  - split; [|reflexivity]. intros _ a Ha Hk.
    assert (Hin : a ∈ de_fila k asientos) by (apply Hfil; auto).
    rewrite Hl in Hin. apply not_elem_of_nil in Hin. exact Hin.
  - intros g [=].
Qed.

(** ** Payments that overlap, and payments in sequence *)

(** C4 fails on the page when two payments overlap.  With two reserved
    tickets, "Pagar" on ticket 1 and then, before its answer, on ticket 2:
    the first answer marks ticket 1 as paid; the second handler maps the list
    its closure captured, in which both were reserved, and writes it back, so
    that the entry with the other id, ticket 1, changes from "pagada" back to
    "reservada". *)
Lemma overlapping_payments_undo_first :
  let r := pagos_solapados 1 2 pagina_confirmacion servidor_cobra_todo in
  entradasCreadas (c_cinema pagina_confirmacion) = [entrada_1; entrada_2] ∧
  estado entrada_1 = reservada ∧ estado entrada_2 = reservada ∧
  entradasCreadas (c_cinema r.1.2) = [con_estado pagada entrada_1; entrada_2] ∧
  entradasCreadas (c_cinema r.2) = [entrada_1; con_estado pagada entrada_2].
Proof. repeat split. Qed.

Section Overlap.
Context {W : Type} `{Api W}.

Lemma entradasActualizadas_otro i j l (k : nat) e :
  i ≠ j → l !! k = Some e → id e = i →
  entradasActualizadas i l !! k = Some (con_estado pagada e) ∧
  entradasActualizadas j l !! k = Some e.
Proof.
  intros Hne Hk Hid. rewrite !entradasActualizadas_lookup, Hk. cbn.
  rewrite Hid, Z.eqb_refl. apply Z.eqb_neq in Hne. rewrite Hne. auto.
Qed.

(** X21: when a second payment is started before the answer to the first
    has arrived and both succeed, the second answer overwrites the first:
    after the first answer the list is the captured one with ticket [i]
    marked, after the second it is the captured one with only ticket [j]
    marked, so that ticket [i] shows "pagada" and then its old estado again.
    Both tickets end unflagged in [pagandoEntradas] and no error shows. *)
Theorem overlapping_payments_lose_update i j p (w w1 w2 : W) ei ej :
  i ≠ j →
  pagarEntrada i w = (w1, Ok ei) →
  pagarEntrada j w1 = (w2, Ok ej) →
  let capturadas := entradasCreadas (c_cinema p) in
  let r := pagos_solapados i j p w in
  entradasCreadas (c_cinema r.1.2) = entradasActualizadas i capturadas ∧
  entradasCreadas (c_cinema r.2) = entradasActualizadas j capturadas ∧
  (∀ (k : nat) e, capturadas !! k = Some e → id e = i →
     entradasCreadas (c_cinema r.1.2) !! k = Some (con_estado pagada e) ∧
     entradasCreadas (c_cinema r.2) !! k = Some e) ∧
  (i ∉ pagandoEntradas (snd r)) ∧ (j ∉ pagandoEntradas (snd r)) ∧
  c_error (snd r) = None.
Proof.
  intros Hne Hi Hj capturadas r. subst capturadas r.
  unfold pagos_solapados. rewrite Hi.
  cbn [handlePagar_antes c_cinema]. rewrite Hj.
  cbn [fst snd handlePagar_despues handlePagar_antes c_cinema c_error pagandoEntradas
       cinemaReducer entradasCreadas].
  split; [reflexivity|]. split; [reflexivity|].
  split; [intros k e Hk Hid; apply (entradasActualizadas_otro i j _ k e Hne Hk Hid)|].
  split; [set_unfold; tauto|]. split; [set_unfold; tauto | reflexivity].
Qed.

Lemma foldl_entradasActualizadas (ids : list Z) l :
  foldl (λ l tid, entradasActualizadas tid l) l ids
  = (λ e, if existsb (Z.eqb (id e)) ids then con_estado pagada e else e) <$> l.
Proof.
  revert l. induction ids as [|i ids IH]; intros l; cbn [foldl existsb].
  - symmetry. apply list_fmap_id.
  - rewrite IH. unfold entradasActualizadas. rewrite <- list_fmap_compose.
    apply list_fmap_ext. intros _ e _. cbn.
    destruct (Z.eqb (id e) i) eqn:Ei; cbn; [|reflexivity].
    destruct (existsb _ ids); reflexivity.
Qed.

Lemma pagos_sucesivos_fold (I : W → Prop) (ids : list Z) p (w : W) :
  I w →
  (∀ tid w0, I w0 → tid ∈ ids → ∃ w' e, pagarEntrada tid w0 = (w', Ok e) ∧ I w') →
  entradasCreadas (c_cinema (foldl (λ wp tid, handlePagar tid wp.2 wp.1) (w, p) ids).2)
  = foldl (λ l tid, entradasActualizadas tid l) (entradasCreadas (c_cinema p)) ids.
Proof.
  revert p w. induction ids as [|tid ids IH]; intros p w Hw Hok; [reflexivity|].
  cbn [foldl fst snd].
  destruct (Hok tid w Hw) as (w' & e & Hp & Hw'); [left|].
  pose proof (handlePagar_ok tid p w w' e Hp) as Hl.
  assert (Hfst : (handlePagar tid p w).1 = w').
  { unfold handlePagar. rewrite Hp. reflexivity. }
  destruct (handlePagar tid p w) as [w1 p1]. cbn [fst snd] in Hl, Hfst. subst w1.
  rewrite (IH p1 w' Hw').
  - rewrite Hl. reflexivity.
  - intros t w0 Hw0 Ht. apply Hok; [exact Hw0 | right; exact Ht].
Qed.

(** X23: paying the tickets one after the other, each payment started after
    the answer to the previous one and every payment succeeding, marks
    exactly the paid ids; when the ids cover the list the result is the
    original list with every entry "pagada" and nothing else changed,
    whatever the order of the payments and their repetitions.  ([I] holds of
    the states of the server in which the payments are made.) *)
Theorem pagos_sucesivos (I : W → Prop) (ids : list Z) p (w : W) :
  I w →
  (∀ tid w0, I w0 → tid ∈ ids → ∃ w' e, pagarEntrada tid w0 = (w', Ok e) ∧ I w') →
  (∀ e, e ∈ entradasCreadas (c_cinema p) → id e ∈ ids) →
  entradasCreadas (c_cinema (foldl (λ wp tid, handlePagar tid wp.2 wp.1) (w, p) ids).2)
  = con_estado pagada <$> entradasCreadas (c_cinema p).
Proof.
  intros Hw Hok Hcov.
  rewrite (pagos_sucesivos_fold I ids p w Hw Hok), foldl_entradasActualizadas.
  apply list_fmap_ext. intros k e He.
  apply list_elem_of_lookup_2, Hcov in He.
  assert (Hex : existsb (Z.eqb (id e)) ids = true).
  { apply existsb_exists. exists (id e). split; [apply list_elem_of_In, He | apply Z.eqb_refl]. }
  rewrite Hex. reflexivity.
Qed.

End Overlap.

Lemma overlapping_payments_lose_update_witness :
  let r := pagos_solapados 1 2 pagina_confirmacion servidor_cobra_todo in
  entradasCreadas (c_cinema r.1.2) = entradasActualizadas 1 [entrada_1; entrada_2] ∧
  entradasCreadas (c_cinema r.2) = entradasActualizadas 2 [entrada_1; entrada_2].
Proof.
  assert (H1 : ∃ e, pagarEntrada 1 servidor_cobra_todo = (servidor_cobra_todo, Ok e))
    by (eexists; reflexivity).
  assert (H2 : ∃ e, pagarEntrada 2 servidor_cobra_todo = (servidor_cobra_todo, Ok e))
    by (eexists; reflexivity).
  destruct H1 as [e1 H1], H2 as [e2 H2].
  destruct (overlapping_payments_lose_update 1 2 pagina_confirmacion
              servidor_cobra_todo servidor_cobra_todo servidor_cobra_todo e1 e2
              ltac:(discriminate) H1 H2) as (Ha & Hb & _).
  split; [exact Ha | exact Hb].
Defined.

Lemma pagos_sucesivos_witness :
  entradasCreadas
    (c_cinema (foldl (λ wp tid, handlePagar tid wp.2 wp.1)
                 (servidor_cobra_todo, pagina_confirmacion) [2; 1; 2]).2)
  = [con_estado pagada entrada_1; con_estado pagada entrada_2].
Proof.
  apply (pagos_sucesivos (λ w0, w0 = servidor_cobra_todo) [2; 1; 2]
           pagina_confirmacion servidor_cobra_todo eq_refl).
  - intros tid w0 -> _. eexists _, _. split; reflexivity.
  - intros e He. apply list_elem_of_In in He.
    destruct He as [He|[He|He]]; [rewrite <- He | rewrite <- He | destruct He];
      apply list_elem_of_In; cbn; auto.
Defined.
